(** * app.py: the metrics calculator of the health recommender

    A shallow embedding of the functions of [app.py] ([calc_bmi],
    [bmi_category], [bmr_mifflin], [activity_multiplier], [calorie_target],
    [macro_split], [sample_meal_plan], [exercise_plan]) and of what the
    script calculates and displays, over a model of the Python values
    they compute with:

    - [float] is IEEE 754 binary64, taken from the Standard Library's
      executable specification [SpecFloat] at precision 53 and [emax] 1024,
      every operation rounding to nearest, ties to even;
    - [int] is [Z];
    - an expression either yields a value or raises: [result]. *)

From Stdlib Require Import ZArith QArith Qpower Lia Lqa Bool List String Ascii.
From Stdlib Require Import Floats.SpecFloat.
Import ListNotations.

Local Open Scope Z_scope.

(** ** The Python values and operators the program uses *)

Module Py.

(** The exceptions the arithmetic of the program can raise. *)
Inductive exn : Set :=
| ZeroDivisionError
| OverflowError
| ValueError.

Inductive result (A : Type) : Type :=
| Ok (a : A)
| Raise (e : exn).
Arguments Ok {A} a.
Arguments Raise {A} e.

Definition bind {A B : Type} (c : result A) (k : A -> result B) : result B :=
  match c with
  | Ok a => k a
  | Raise e => Raise e
  end.

(** *** binary64 *)

Definition prec : Z := 53.
Definition emax : Z := 1024.

Definition float : Set := spec_float.

Definition fadd : float -> float -> float := SFadd prec emax.
Definition fsub : float -> float -> float := SFsub prec emax.
Definition fmul : float -> float -> float := SFmul prec emax.
Definition fdiv : float -> float -> float := SFdiv prec emax.

(** The binary64 nearest to an integer; an infinity when it is out of
    range. *)
Definition float_of_Z (z : Z) : float := binary_normalize prec emax z 0 false.

(** A decimal literal [n/d] of the source: the binary64 nearest to it
    (both [n] and [d] are small enough to be exact, and the division
    rounds the exact quotient once). *)
Definition literal (n d : Z) : float := fdiv (float_of_Z n) (float_of_Z d).

Definition is_infinity (f : float) : bool :=
  match f with S754_infinity _ => true | _ => false end.
Definition is_zero (f : float) : bool :=
  match f with S754_zero _ => true | _ => false end.

(** *** Numbers: [int] and [float] *)

Inductive num : Set :=
| Int (z : Z)
| Float (f : float).

(** The conversion of an operand to [float] in mixed arithmetic
    ([PyLong_AsDouble]): the nearest binary64, [OverflowError] when the
    integer is too large. *)
Definition int_to_float (z : Z) : result float :=
  let f := float_of_Z z in
  if is_infinity f then Raise OverflowError else Ok f.

Definition to_float (n : num) : result float :=
  match n with
  | Float f => Ok f
  | Int z => int_to_float z
  end.

Definition arith (iop : Z -> Z -> Z) (fop : float -> float -> float)
    (a b : num) : result num :=
  match a, b with
  | Int x, Int y => Ok (Int (iop x y))
  | _, _ =>
      bind (to_float a) (fun x =>
      bind (to_float b) (fun y =>
      Ok (Float (fop x y))))
  end.

Definition add : num -> num -> result num := arith Z.add fadd.
Definition sub : num -> num -> result num := arith Z.sub fsub.
Definition mul : num -> num -> result num := arith Z.mul fmul.

(** [a / b], true division.  Between two integers it is the exact
    quotient rounded once; [OverflowError] when that is out of range. *)
Definition int_truediv (x y : Z) : result num :=
  if y =? 0 then Raise ZeroDivisionError
  else
    let '(q, e, l) := SFdiv_core_binary prec emax (Z.abs x) 0 (Z.abs y) 0 in
    let f := binary_round_aux prec emax (xorb (x <? 0) (y <? 0)) q e l in
    if is_infinity f then Raise OverflowError else Ok (Float f).

Definition truediv (a b : num) : result num :=
  match a, b with
  | Int x, Int y => int_truediv x y
  | _, _ =>
      bind (to_float a) (fun x =>
      bind (to_float b) (fun y =>
      if is_zero y then Raise ZeroDivisionError
      else Ok (Float (fdiv x y))))
  end.

(** [x ** 2].  On a float, [float_pow] answers NaN, infinities and zeros
    itself and otherwise calls C's [pow(|x|, 2.0)], here the square
    rounded once; a result that overflows is [OverflowError], one that
    underflows is returned. *)
Definition float_pow2 (x : float) : result float :=
  match x with
  | S754_nan => Ok S754_nan
  | S754_infinity _ => Ok (S754_infinity false)
  | S754_zero _ => Ok (S754_zero false)
  | S754_finite _ _ _ =>
      let r := fmul x x in
      if is_infinity r then Raise OverflowError else Ok r
  end.

Definition pow2 (a : num) : result num :=
  match a with
  | Int x => Ok (Int (x * x))
  | Float x => bind (float_pow2 x) (fun r => Ok (Float r))
  end.

(** *** Comparison

    Python orders numbers by their exact values, also between an [int]
    and a [float]; the two zeros are equal and a NaN is unordered. *)
Inductive xreal : Set :=
| Xnan
| Xneg_inf
| Xfinite (q : Q)
| Xpos_inf.

Definition float_value (f : float) : xreal :=
  match f with
  | S754_nan => Xnan
  | S754_infinity s => if s then Xneg_inf else Xpos_inf
  | S754_zero _ => Xfinite 0
  | S754_finite s m e => Xfinite (inject_Z (cond_Zopp s (Zpos m)) * 2 ^ e)
  end.

Definition value (a : num) : xreal :=
  match a with
  | Int z => Xfinite (inject_Z z)
  | Float f => float_value f
  end.

Definition xcompare (x y : xreal) : option comparison :=
  match x, y with
  | Xnan, _ | _, Xnan => None
  | Xfinite p, Xfinite q => Some (p ?= q)%Q
  | Xneg_inf, Xneg_inf | Xpos_inf, Xpos_inf => Some Eq
  | Xneg_inf, _ | _, Xpos_inf => Some Lt
  | Xpos_inf, _ | _, Xneg_inf => Some Gt
  end.

Definition compare (a b : num) : option comparison :=
  xcompare (value a) (value b).

Definition lt (a b : num) : bool :=
  match compare a b with Some Lt => true | _ => false end.
Definition le (a b : num) : bool :=
  match compare a b with Some (Lt | Eq) => true | _ => false end.
Definition gt (a b : num) : bool := lt b a.
Definition eq (a b : num) : bool :=
  match compare a b with Some Eq => true | _ => false end.

(** [max(a, b)]: the first argument unless the second is greater. *)
Definition max (a b : num) : num := if gt b a then b else a.

(** The quotient [m / d] rounded to the nearest integer, a tie to the
    even one. *)
Definition div_nearest_even (m d : Z) : Z :=
  let q := m / d in
  match 2 * (m mod d) ?= d with
  | Lt => q
  | Gt => q + 1
  | Eq => if Z.even q then q else q + 1
  end.

(** [round(x)] with one argument: the nearest integer, ties to the even
    one; [ValueError] on a NaN and [OverflowError] on an infinity. *)
Definition float_round (f : float) : result Z :=
  match f with
  | S754_nan => Raise ValueError
  | S754_infinity _ => Raise OverflowError
  | S754_zero _ => Ok 0
  | S754_finite s m e =>
      Ok (cond_Zopp s
            (if 0 <=? e then Zpos m * 2 ^ e
             else div_nearest_even (Zpos m) (2 ^ (- e))))
  end.

Definition round (a : num) : result Z :=
  match a with
  | Int z => Ok z
  | Float f => float_round f
  end.

(** [int(x)]: the float truncated towards zero; [ValueError] on a NaN and
    [OverflowError] on an infinity. *)
Definition float_trunc (f : float) : result Z :=
  match f with
  | S754_nan => Raise ValueError
  | S754_infinity _ => Raise OverflowError
  | S754_zero _ => Ok 0
  | S754_finite s m e =>
      Ok (cond_Zopp s (if 0 <=? e then Zpos m * 2 ^ e else Zpos m / 2 ^ (- e)))
  end.

Definition trunc (a : num) : result Z :=
  match a with
  | Int z => Ok z
  | Float f => float_trunc f
  end.

(** *** Strings

    [str.lower] maps the ASCII capitals to small letters; that is all the
    comparison with "male" depends on. *)

Definition lower_ascii (c : ascii) : ascii :=
  let n := nat_of_ascii c in
  if (Nat.leb 65 n && Nat.leb n 90)%bool then ascii_of_nat (n + 32) else c.

Fixpoint lower (s : string) : string :=
  match s with
  | EmptyString => EmptyString
  | String c s' => String (lower_ascii c) (lower s')
  end.

(** [d.get(key, default)] on a dict written as a literal. *)
Fixpoint get {V : Type} (d : list (string * V)) (key : string) (default : V) : V :=
  match d with
  | [] => default
  | (k, v) :: d' => if String.eqb k key then v else get d' key default
  end.

(** Operators on expressions that may already have raised: the left
    operand is evaluated first. *)
Definition lift2 (op : num -> num -> result num) (x y : result num) : result num :=
  bind x (fun a => bind y (fun b => op a b)).

End Py.

Import Py.

Declare Scope py_scope.
Delimit Scope py_scope with py.
Bind Scope py_scope with result.

Notation "x <- c ;; k" := (bind c (fun x => k))
  (at level 61, c at next level, right associativity) : py_scope.
Notation "a +! b" := (lift2 add a b) (at level 50, left associativity) : py_scope.
Notation "a -! b" := (lift2 sub a b) (at level 50, left associativity) : py_scope.
Notation "a *! b" := (lift2 mul a b) (at level 40, left associativity) : py_scope.
Notation "a /! b" := (lift2 truediv a b) (at level 40, left associativity) : py_scope.
Abbreviation int z := (@Ok num (Int z)).
Abbreviation flt f := (@Ok num (Float f)).

Local Open Scope string_scope.
Local Open Scope py_scope.
Local Open Scope Z_scope.

(** The float literals of the source. *)
Definition f100_0 : float := literal 100 1.
Definition f18_5 : float := literal 185 10.
Definition f6_25 : float := literal 625 100.
Definition f1_2 : float := literal 12 10.
Definition f1_375 : float := literal 1375 1000.
Definition f1_55 : float := literal 155 100.
Definition f1_725 : float := literal 1725 1000.
Definition f1_9 : float := literal 19 10.
Definition f1_6 : float := literal 16 10.
Definition f0_30 : float := literal 30 100.

(** ** Helper functions *)

Definition calc_bmi (weight_kg height_cm : num) : result (option num) :=
  h_m <- Ok height_cm /! flt f100_0 ;;
  if le h_m (Int 0) then Ok None
  else
    bmi <- Ok weight_kg /! pow2 h_m ;;
    Ok (Some bmi).

Definition bmi_category (bmi : option num) : string :=
  match bmi with
  | None => "Unknown"
  | Some bmi =>
      if lt bmi (Float f18_5) then "Underweight"
      else if lt bmi (Int 25) then "Normal weight"
      else if lt bmi (Int 30) then "Overweight"
      else "Obesity"
  end.

Definition bmr_mifflin (weight height age : num) (gender : string) : result num :=
  if String.eqb (lower gender) "male" then
    int 10 *! Ok weight +! flt f6_25 *! Ok height -! int 5 *! Ok age +! int 5
  else
    int 10 *! Ok weight +! flt f6_25 *! Ok height -! int 5 *! Ok age -! int 161.

Definition activity_multiplier (level : string) : num :=
  let mapping :=
    [ ("sedentary", Float f1_2);
      ("light", Float f1_375);
      ("moderate", Float f1_55);
      ("active", Float f1_725);
      ("very active", Float f1_9) ] in
  get mapping level (Float f1_2).

Definition calorie_target (tdee : num) (goal : string) : result num :=
  if String.eqb goal "lose" then
    d <- Ok tdee -! int 500 ;;
    Ok (max (Int 1200) d)
  else if String.eqb goal "gain" then
    Ok tdee +! int 300
  else
    Ok tdee.

Record macros : Set := {
  protein_g : Z;
  fat_g : Z;
  carb_g : Z
}.

Definition macro_split (calories protein_g_per_kg weight : num) : result macros :=
  protein_g <- Ok protein_g_per_kg *! Ok weight ;;
  protein_cals <- Ok protein_g *! int 4 ;;
  fat_cals <- Ok calories *! flt f0_30 ;;
  fat_g <- Ok fat_cals /! int 9 ;;
  carb_cals <- Ok calories -! Ok protein_cals -! Ok fat_cals ;;
  q <- Ok carb_cals /! int 4 ;;
  let carb_g := max (Int 0) q in
  p <- round protein_g ;;
  f <- round fat_g ;;
  c <- round carb_g ;;
  Ok {| protein_g := p; fat_g := f; carb_g := c |}.

(** ** The script: one form submission

    What the form hands over: [st.number_input] with float bounds yields a
    [float], with integer bounds an [int]; the select boxes and the radio
    yield one of their option strings. *)
Record UserInput : Set := {
  weight : float;
  height : float;
  age : Z;
  gender : string;
  exercise_level : string;
  goal : string;
  water_cups : Z
}.

Record DerivedMetrics : Set := {
  bmi : option num;
  category : string;
  bmr : num;
  tdee : num;
  cal_target : num;
  macros_ : macros;
  recommended_cups : Z
}.

(** [gender if gender in ['male','female'] else 'female']. *)
Definition formula_gender (gender : string) : string :=
  if (String.eqb gender "male" || String.eqb gender "female")%bool then gender
  else "female".

(** Lines 107 to 110: [bmr], [tdee] and [cal_target]. *)
Definition energy_needs (u : UserInput) : result (num * num * num) :=
  bmr <- bmr_mifflin (Float (weight u)) (Float (height u)) (Int (age u))
           (formula_gender (gender u)) ;;
  let mult := activity_multiplier (exercise_level u) in
  tdee <- Ok bmr *! Ok mult ;;
  cal_target <- calorie_target tdee (goal u) ;;
  Ok (bmr, tdee, cal_target).

(** Lines 113 to 118. *)
Definition protein_g_per_kg (goal : string) : num :=
  if String.eqb goal "lose" then Float f1_6
  else if String.eqb goal "gain" then Float f1_6
  else Float f1_2.

(** Lines 150 and 151. *)
Definition hydration (u : UserInput) : result Z :=
  recommended_water_ml <- int 30 *! flt (weight u) ;;
  q <- Ok recommended_water_ml /! int 250 ;;
  round q.

(** The calculations of the script in the order it performs them; the
    Streamlit and matplotlib calls between them only display values. *)
Definition calculations (u : UserInput) : result DerivedMetrics :=
  bmi <- calc_bmi (Float (weight u)) (Float (height u)) ;;
  let category := bmi_category bmi in
  e <- energy_needs u ;;
  let '(bmr, tdee, cal_target) := e in
  macros <- macro_split cal_target (protein_g_per_kg (goal u)) (Float (weight u)) ;;
  recommended_cups <- hydration u ;;
  Ok {| bmi := bmi; category := category; bmr := bmr; tdee := tdee;
        cal_target := cal_target; macros_ := macros;
        recommended_cups := recommended_cups |}.

(** ** The plans and what the script displays *)

Definition f0_20 : float := literal 20 100.
Definition f0_15 : float := literal 15 100.
Definition f0_35 : float := literal 35 100.

(** The dict of [sample_meal_plan], in the order of its keys. *)
Definition sample_meal_plan (calories : num)
  : result (list (string * (Z * list string))) :=
  b <- bind (Ok calories *! flt f0_20) trunc ;;
  l <- bind (Ok calories *! flt f0_30) trunc ;;
  s <- bind (Ok calories *! flt f0_15) trunc ;;
  d <- bind (Ok calories *! flt f0_35) trunc ;;
  Ok [ ("Breakfast",
         (b, ["Oats or wholegrain cereal (1 bowl)"; "1 serving fruit";
              "6-8 egg whites or 1 whole egg + 2 whites or paneer/tofu"]));
       ("Lunch",
         (l, ["1 cup cooked whole grains (rice/quinoa)";
              "Large serving vegetables/salad";
              "100-150 g lean protein (chicken/fish/legumes)"]));
       ("Snack", (s, ["Greek yogurt or a handful of nuts + fruit"]));
       ("Dinner",
         (d, ["Vegetable stir-fry or salad with protein";
              "Smaller portion of carbs than lunch"])) ].

Record exercise_dict : Set := {
  cardio : string;
  strength : string;
  mobility : string
}.

Definition exercise_plan (bmi : option num) (level : string) : exercise_dict :=
  let cardio :=
    if (String.eqb level "sedentary" || String.eqb level "light")%bool then
      "Start with 20-30 minutes brisk walking 4-5x/week. Gradually increase intensity to include 2 sessions of 20-30 minutes of jogging or cycling."
    else if String.eqb level "moderate" then
      "Maintain 30-45 minutes of moderate cardio 4-5x/week; include 1-2 higher-intensity intervals per week."
    else
      "Keep varied cardio 4-6x/week, include intervals or sports for intensity and enjoyment." in
  let strength :=
    match bmi with
    | None =>
        "General strength training 2-3x/week focusing on all major muscle groups."
    | Some bmi =>
        if lt bmi (Float f18_5) then
          "Focus on progressive resistance training 3x/week to build muscle mass; use compound lifts and ensure calorie surplus if trying to gain."
        else if lt bmi (Int 25) then
          "Balanced strength training 2-4x/week to preserve muscle and support metabolism; combine full-body sessions."
        else
          "Begin with low-impact strength and mobility work 2-3x/week, gradually increase intensity; combine with aerobic work for fat loss."
    end in
  let mobility :=
    "Include mobility and flexibility work (10-15 min) after workouts or on rest days — yoga or dynamic stretching." in
  {| cardio := cardio; strength := strength; mobility := mobility |}.

(** What the script computes for display after the calculations, in its
    order: the rounded energy figures (lines 129 to 133), the hydration
    check (lines 150 to 157), the meal plan of the rounded target (line
    180) and the exercise plan (line 221).  The formatting and drawing of
    these values is not modelled. *)
Record Outputs : Set := {
  out_bmi : option num;
  out_category : string;
  out_bmr : Z;
  out_tdee : Z;
  out_cal_target : Z;
  out_macros : macros;
  out_recommended_cups : Z;
  out_drinks_too_little : bool;
  out_plan : list (string * (Z * list string));
  out_ex_plan : exercise_dict
}.

Definition outputs (u : UserInput) : result Outputs :=
  bmi <- calc_bmi (Float (weight u)) (Float (height u)) ;;
  let category := bmi_category bmi in
  e <- energy_needs u ;;
  let '(bmr, tdee, cal_target) := e in
  macros <- macro_split cal_target (protein_g_per_kg (goal u)) (Float (weight u)) ;;
  bmr_kcal <- round bmr ;;
  tdee_kcal <- round tdee ;;
  target_kcal <- round cal_target ;;
  recommended_cups <- hydration u ;;
  let too_little := water_cups u <? recommended_cups in
  plan <- sample_meal_plan (Int target_kcal) ;;
  let ex_plan := exercise_plan bmi (exercise_level u) in
  Ok {| out_bmi := bmi; out_category := category; out_bmr := bmr_kcal;
        out_tdee := tdee_kcal; out_cal_target := target_kcal;
        out_macros := macros; out_recommended_cups := recommended_cups;
        out_drinks_too_little := too_little; out_plan := plan;
        out_ex_plan := ex_plan |}.

(** ** Definitions used to state the properties *)

(** The two Mifflin-St Jeor expressions of the specification, in Python's
    arithmetic. *)
Definition mifflin_male (w h a : num) : result num :=
  int 10 *! Ok w +! flt f6_25 *! Ok h -! int 5 *! Ok a +! int 5.

Definition mifflin_female (w h a : num) : result num :=
  int 10 *! Ok w +! flt f6_25 *! Ok h -! int 5 *! Ok a -! int 161.

(** Bounded quantification over the integers of a range, by evaluation. *)
Fixpoint all_below (n : nat) (p : Z -> bool) : bool :=
  match n with
  | O => true
  | S k => p (Z.of_nat k) && all_below k p
  end.

(** The values of the form that the specification's data model allows:
    weight 20 to 300, height 80 to 250, age 10 to 100. *)
Definition in_range (u : UserInput) : bool :=
  le (Int 20) (Float (weight u)) && le (Float (weight u)) (Int 300) &&
  le (Int 80) (Float (height u)) && le (Float (height u)) (Int 250) &&
  (10 <=? age u) && (age u <=? 100).

(** The lightest, shortest and oldest person the form accepts. *)
Definition lightest_oldest (goal : string) : UserInput :=
  {| weight := float_of_Z 20; height := float_of_Z 80; age := 100;
     gender := "female"; exercise_level := "sedentary"; goal := goal;
     water_cups := 6 |}.

(** [exactly a q]: the number [a] has the exact value [q]. *)
Definition exactly (a : num) (q : Q) : bool :=
  match value a with
  | Xfinite p => Qeq_bool p q
  | _ => false
  end.

(** A float the interpreter can hold: a well-formed binary64. *)
Definition valid (f : float) : bool := valid_binary prec emax f.

(** The keys of the dict of [activity_multiplier]. *)
Definition activity_levels : list string :=
  ["sedentary"; "light"; "moderate"; "active"; "very active"].

(** The sign given to the rounding is the sign of its result. *)
Inductive signed (s : bool) : float -> Prop :=
| signed_zero : signed s (S754_zero s)
| signed_finite m e : signed s (S754_finite s m e)
| signed_infinity : signed s (S754_infinity s).


(** The three quantities of the macro split before they are rounded:
    protein from the ratio, fat as 30% of the calories at 9 kcal/g, and
    the remaining calories as carbohydrate at 4 kcal/g, not below 0. *)
Definition protein_grams (ratio weight : num) : result num :=
  Ok ratio *! Ok weight.

Definition fat_grams (calories : num) : result num :=
  Ok calories *! flt f0_30 /! int 9.

Definition carb_calories (calories ratio weight : num) : result num :=
  Ok calories -! Ok ratio *! Ok weight *! int 4 -! Ok calories *! flt f0_30.

Definition carb_grams (calories ratio weight : num) : result num :=
  q <- carb_calories calories ratio weight /! int 4 ;;
  Ok (max (Int 0) q).

(** The specification's wording of the last one: the floor at 0 is applied
    to the calories, before the division by 4. *)
Definition carb_grams_floor_first (calories ratio weight : num) : result num :=
  x <- carb_calories calories ratio weight ;;
  Ok (max (Int 0) x) /! int 4.

(** The quotient of the hydration check: 30 ml per kg, in cups of
    250 ml. *)
Definition water_quotient (w : float) : float :=
  fdiv (fmul (float_of_Z 30) w) (float_of_Z 250).

(** A submission with the default values of the form. *)
Definition default_input : UserInput :=
  {| weight := float_of_Z 70; height := float_of_Z 170; age := 25;
     gender := "male"; exercise_level := "light"; goal := "maintain";
     water_cups := 6 |}.

Definition with_water_cups (n : Z) (u : UserInput) : UserInput :=
  {| weight := weight u; height := height u; age := age u;
     gender := gender u; exercise_level := exercise_level u; goal := goal u;
     water_cups := n |}.

(** The strength advice that goes with each category of [bmi_category]. *)
Definition strength_of_category (category : string) : string :=
  if String.eqb category "Unknown" then
    "General strength training 2-3x/week focusing on all major muscle groups."
  else if String.eqb category "Underweight" then
    "Focus on progressive resistance training 3x/week to build muscle mass; use compound lifts and ensure calorie surplus if trying to gain."
  else if String.eqb category "Normal weight" then
    "Balanced strength training 2-4x/week to preserve muscle and support metabolism; combine full-body sessions."
  else
    "Begin with low-impact strength and mobility work 2-3x/week, gradually increase intensity; combine with aerobic work for fat loss.".

(** The categories in the order of their bands. *)
Definition category_rank (category : string) : Z :=
  if String.eqb category "Underweight" then 0
  else if String.eqb category "Normal weight" then 1
  else if String.eqb category "Overweight" then 2
  else if String.eqb category "Obesity" then 3
  else -1.

(** The calories of the meals of a plan, and the names of its meals. *)
Definition meal_kcal (plan : list (string * (Z * list string))) : list Z :=
  map (fun meal => fst (snd meal)) plan.

Definition meal_names (plan : list (string * (Z * list string))) : list string :=
  map fst plan.

(** Bounded quantification from an integer on, counting upwards. *)
Fixpoint all_from (n : nat) (z : Z) (p : Z -> bool) : bool :=
  match n with
  | O => true
  | S k => p z && all_from k (z + 1) p
  end.

(** The four shares of [sample_meal_plan] as the binary64 numbers that
    the literals denote. *)
Definition f0_20_value : float := Eval vm_compute in f0_20.
Definition f0_30_value : float := Eval vm_compute in f0_30.
Definition f0_15_value : float := Eval vm_compute in f0_15.
Definition f0_35_value : float := Eval vm_compute in f0_35.

(** [int(calories * share)] for an integer number of calories. *)
Definition meal_share (calories : Z) (share : float) : result Z :=
  bind (mul (Int calories) (Float share)) trunc.

(** What the four shares are for a target of [c] kcal: 20%, 30% and 15%
    rounded down, and 35% rounded down or one less; in total at most [c]
    and at least [c - 3]. *)
Definition meal_split_ok (c : Z) : bool :=
  match meal_share c f0_20_value, meal_share c f0_30_value,
        meal_share c f0_15_value, meal_share c f0_35_value with
  | Ok b, Ok l, Ok s, Ok d =>
      (b =? 20 * c / 100) && (l =? 30 * c / 100) && (s =? 15 * c / 100) &&
      ((d =? 35 * c / 100) || (d =? 35 * c / 100 - 1)) &&
      (c - 3 <=? b + l + s + d) && (b + l + s + d <=? c)
  | _, _, _, _ => false
  end.

(** *** Bounds

    The predicates below say that a float computed by the program lies
    between two integers; they are used to follow the values of the form
    through the arithmetic. *)

(** 1 when a location says that digits were lost, 0 when it is exact. *)
Definition inexact (l : location) : Z :=
  match l with loc_Exact => 0 | loc_Inexact _ => 1 end.

(** A float that is zero or finite with a magnitude between two
    integers, its exponent at most 0. *)
Definition mag_between (a b : Z) (f : float) : Prop :=
  match f with
  | S754_zero _ => a <= 0
  | S754_finite _ m e => e <= 0 /\ a * 2 ^ (- e) <= Z.pos m <= b * 2 ^ (- e)
  | _ => False
  end.

(** A float whose value lies between two integers. *)
Definition between (lo hi : Z) (f : float) : Prop :=
  match f with
  | S754_zero _ => lo <= 0 <= hi
  | S754_finite s m e =>
      e <= 0 /\ lo * 2 ^ (- e) <= cond_Zopp s (Z.pos m) <= hi * 2 ^ (- e)
  | _ => False
  end.

(** A number whose value lies between two integers. *)
Definition nbetween (lo hi : Z) (n : num) : Prop :=
  match n with
  | Int z => lo <= z <= hi
  | Float f => between lo hi f
  end.

(** The quotient of two integers rounded up. *)
Definition cdiv (b c : Z) : Z := - (- b / c).

(** What holds of the values the script displays. *)
Definition displayed_ok (u : UserInput) (o : Outputs) : Prop :=
  (exists (m : positive) (e : Z),
     out_bmi o = Some (Float (S754_finite false m e)) /\
     Z.pos (digits2_pos m) = 53 /\ -55 <= e <= -41) /\
  out_category o = bmi_category (out_bmi o) /\
  out_ex_plan o = exercise_plan (out_bmi o) (exercise_level u) /\
  19 <= out_bmr o <= 4705 /\ 19 <= out_tdee o <= 9410 /\
  19 <= out_cal_target o <= 9710 /\
  20 <= protein_g (out_macros o) <= 600 /\
  0 <= fat_g (out_macros o) <= 1079 /\
  0 <= carb_g (out_macros o) <= 2408 /\
  2 <= out_recommended_cups o <= 36 /\
  out_drinks_too_little o = (water_cups u <? out_recommended_cups o) /\
  sample_meal_plan (Int (out_cal_target o)) = Ok (out_plan o).

(** ** Tactics *)

(** Evaluation of an expression up to the float operations: integer
    constants are converted, binds on values are reduced. *)
Ltac py_const :=
  match goal with
  | |- context [int_to_float (Z.pos ?p)] =>
      change (int_to_float (Z.pos p)) with (Ok (float_of_Z (Z.pos p)))
  | |- context [int_to_float 0] =>
      change (int_to_float 0) with (Ok (float_of_Z 0))
  end.

Ltac py_eval :=
  unfold lift2, mul, add, sub, truediv, arith;
  cbn [bind to_float];
  repeat (py_const; cbn [bind to_float]).

(** Case analysis on the steps of a computation that is known to return,
    and replay of the steps on another computation. *)
Ltac bind_cases H :=
  repeat match type of H with
         | bind ?c _ = Ok _ =>
             let E := fresh "E" in
             destruct c eqn:E; cbn [bind] in H; [bind_cases E|discriminate H]
         end.

Ltac bind_replay :=
  cbn [bind];
  repeat match goal with
         | E : ?c = Ok _ |- context [bind ?c _] => rewrite E; cbn [bind]
         end.

(** A bound on a constant of the program, by evaluation. *)
Ltac between_const :=
  match goal with
  | |- between _ _ ?f =>
      let v := eval vm_compute in f in
      change f with v; cbn [between cond_Zopp]; lia
  end.

(** * Properties *)

(** ** Facts about the order of numbers *)

Lemma xcompare_antisym (x y : xreal) :
  xcompare y x = option_map CompOpp (xcompare x y).
Proof.
  destruct x, y; simpl; try reflexivity.
  now rewrite Qcompare_antisym.
Qed.

Lemma xcompare_lt_trans (x y z : xreal) :
  xcompare x y = Some Lt -> xcompare y z = Some Lt -> xcompare x z = Some Lt.
Proof.
  destruct x, y, z; simpl; try discriminate; try reflexivity.
  intros H1 H2. injection H1 as H1. injection H2 as H2. f_equal.
  apply Qlt_alt in H1. apply Qlt_alt in H2. apply Qlt_alt.
  now apply Qlt_trans with q0.
Qed.

Lemma xcompare_eq_lt_trans (x y z : xreal) :
  xcompare x y = Some Eq -> xcompare y z = Some Lt -> xcompare x z = Some Lt.
Proof.
  destruct x, y, z; simpl; try discriminate; try reflexivity.
  intros H1 H2. injection H1 as H1. injection H2 as H2. f_equal.
  apply Qeq_alt in H1. apply Qlt_alt in H2. apply Qlt_alt.
  now rewrite H1.
Qed.

Lemma lt_le (a b : num) : lt a b = true -> le a b = true.
Proof. unfold lt, le. destruct (compare a b) as [[]|]; easy. Qed.

Lemma le_not_lt (a b : num) : le a b = true -> lt b a = false.
Proof.
  unfold lt, le, compare. rewrite (xcompare_antisym (value a) (value b)).
  destruct (xcompare (value a) (value b)) as [[]|]; easy.
Qed.

Lemma lt_not_le (a b : num) : lt a b = true -> le b a = false.
Proof.
  unfold lt, le, compare. rewrite (xcompare_antisym (value a) (value b)).
  destruct (xcompare (value a) (value b)) as [[]|]; easy.
Qed.

Lemma le_lt_trans (a b c : num) :
  le a b = true -> lt b c = true -> lt a c = true.
Proof.
  unfold lt, le, compare. intros H1 H2.
  destruct (xcompare (value a) (value b)) as [[]|] eqn:E1; try discriminate;
    destruct (xcompare (value b) (value c)) as [[]|] eqn:E2; try discriminate.
  - now rewrite (xcompare_eq_lt_trans _ _ _ E1 E2).
  - now rewrite (xcompare_lt_trans _ _ _ E1 E2).
Qed.

(** ** Powers of two *)

Lemma Qpower_2_neg (e : Z) :
  e < 0 -> (2 ^ e * inject_Z (2 ^ (- e)) == 1)%Q.
Proof.
  intros He.
  rewrite (Zpower_Qpower 2 (- e)) by lia.
  change (inject_Z 2) with 2%Q.
  rewrite Qpower_opp. apply Qmult_inv_r.
  apply Qpower_not_0. discriminate.
Qed.

(** ** Signs through rounding *)

Lemma shr_1_nonneg (mrs : shr_record) : 0 <= shr_m mrs -> 0 <= shr_m (shr_1 mrs).
Proof.
  destruct mrs as [m r s]. simpl.
  destruct m as [|[p|p|]|[p|p|]]; simpl; lia.
Qed.

Lemma iter_pos_shr_1_nonneg (p : positive) (mrs : shr_record) :
  0 <= shr_m mrs -> 0 <= shr_m (iter_pos shr_1 p mrs).
Proof.
  revert mrs. induction p as [p IH|p IH|]; intros mrs H; simpl.
  - apply IH, IH, shr_1_nonneg, H.
  - apply IH, IH, H.
  - apply shr_1_nonneg, H.
Qed.

Lemma shr_fexp_nonneg (m e : Z) (l : location) :
  0 <= m -> 0 <= shr_m (fst (shr_fexp prec emax m e l)).
Proof.
  intros Hm. unfold shr_fexp, shr.
  assert (H0 : 0 <= shr_m (shr_record_of_loc m l)) by (destruct l as [|[]]; exact Hm).
  destruct (fexp prec emax (Zdigits2 m + e) - e); simpl; try exact H0.
  now apply iter_pos_shr_1_nonneg.
Qed.

Lemma round_nearest_even_nonneg (m : Z) (l : location) :
  0 <= m -> 0 <= round_nearest_even m l.
Proof.
  intros Hm. destruct l as [|[]]; simpl; try lia.
  destruct (Z.even m); lia.
Qed.

Lemma binary_round_aux_signed (s : bool) (m e : Z) (l : location) :
  0 <= m -> signed s (binary_round_aux prec emax s m e l).
Proof.
  intros Hm. unfold binary_round_aux.
  pose proof (shr_fexp_nonneg m e l Hm) as H1.
  destruct (shr_fexp prec emax m e l) as [mrs' e']. simpl in H1.
  pose proof (shr_fexp_nonneg _ e' loc_Exact
                (round_nearest_even_nonneg _ (loc_of_shr_record mrs') H1)) as H2.
  destruct (shr_fexp prec emax _ e' loc_Exact) as [mrs'' e'']. simpl in H2.
  destruct (shr_m mrs'') as [|p|p].
  - constructor.
  - destruct (e'' <=? emax - prec); constructor.
  - lia.
Qed.

Lemma fdiv_finite_signed (sx sy : bool) (mx my : positive) (ex ey : Z) :
  signed (xorb sx sy) (fdiv (S754_finite sx mx ex) (S754_finite sy my ey)).
Proof.
  unfold fdiv, SFdiv.
  destruct (SFdiv_core_binary prec emax (Z.pos mx) ex (Z.pos my) ey) as [[mz ez] lz] eqn:E.
  apply binary_round_aux_signed.
  unfold SFdiv_core_binary in E.
  set (m' := match _ - _ - _ with Z.pos _ => _ | 0 => Z.pos mx | Z.neg _ => 0 end) in E.
  assert (Hm' : 0 <= m').
  { subst m'. destruct (_ - _ - _); try lia. apply Z.shiftl_nonneg. lia. }
  pose proof (Z.div_pos m' (Z.pos my) Hm' eq_refl) as Hq.
  unfold Z.div in Hq. destruct (Z.div_eucl m' (Z.pos my)) as [q r].
  injection E as <- _ _. exact Hq.
Qed.

Lemma xcompare_finite_lt (p q : Q) :
  (p < q)%Q -> xcompare (Xfinite p) (Xfinite q) = Some Lt.
Proof. intros H. simpl. f_equal. exact (proj1 (Qlt_alt p q) H). Qed.


Lemma finite_value_pos (m : positive) (e : Z) :
  (inject_Z 0 < inject_Z (Z.pos m) * 2 ^ e)%Q.
Proof.
  apply Qmult_lt_0_compat; [reflexivity|].
  apply Qpower_0_lt. reflexivity.
Qed.

Lemma finite_value_neg (m : positive) (e : Z) :
  (inject_Z (Z.neg m) * 2 ^ e < inject_Z 0)%Q.
Proof.
  pose proof (finite_value_pos m e) as H.
  change (inject_Z (Z.neg m)) with (- inject_Z (Z.pos m))%Q.
  change (inject_Z 0) with 0%Q in *.
  setoid_replace (- inject_Z (Z.pos m) * 2 ^ e)%Q
    with (- (inject_Z (Z.pos m) * 2 ^ e))%Q by ring.
  lra.
Qed.

Lemma signed_le_zero (f : float) : signed true f -> le (Float f) (Int 0) = true.
Proof.
  intros [|m e|]; try reflexivity.
  unfold le, compare, value, float_value. cbn [cond_Zopp Z.opp].
  now rewrite (xcompare_finite_lt _ _ (finite_value_neg m e)).
Qed.

Lemma signed_gt_zero (f : float) :
  signed false f ->
  (is_zero f = true /\ gt (Float f) (Int 0) = false) \/
  (is_zero f = false /\ gt (Float f) (Int 0) = true).
Proof.
  intros [|m e|]; [left|right|right]; split; try reflexivity.
  unfold gt, lt, compare, value, float_value. cbn [cond_Zopp].
  now rewrite (xcompare_finite_lt _ _ (finite_value_pos m e)).
Qed.


(** ** Rounding in the normal range *)

Lemma digits2_pos_bounds (p : positive) :
  2 ^ (Z.pos (digits2_pos p) - 1) <= Z.pos p < 2 ^ Z.pos (digits2_pos p).
Proof.
  induction p as [p IH|p IH|]; cbn [digits2_pos].
  - rewrite Pos2Z.inj_succ.
    replace (Z.succ (Z.pos (digits2_pos p)) - 1) with (Z.succ (Z.pos (digits2_pos p) - 1)) by lia.
    rewrite !Z.pow_succ_r by lia. lia.
  - rewrite Pos2Z.inj_succ.
    replace (Z.succ (Z.pos (digits2_pos p)) - 1) with (Z.succ (Z.pos (digits2_pos p) - 1)) by lia.
    rewrite !Z.pow_succ_r by lia. lia.
  - simpl. lia.
Qed.

Lemma digits2_pos_unique (p : positive) (d : Z) :
  2 ^ (d - 1) <= Z.pos p < 2 ^ d -> Z.pos (digits2_pos p) = d.
Proof.
  intros [L U]. pose proof (digits2_pos_bounds p) as [L' U'].
  set (D := Z.pos (digits2_pos p)) in *.
  assert (HD : 0 < D) by (subst D; lia).
  assert (Hd : 0 < d).
  { destruct (Z.ltb_spec 0 d) as [H|H]; [exact H|].
    exfalso. assert (2 ^ d <= 2 ^ 0) by (apply Z.pow_le_mono_r; lia).
    simpl in *. lia. }
  destruct (Z.lt_trichotomy D d) as [H|[H|H]]; [|exact H|].
  - exfalso. assert (2 ^ D <= 2 ^ (d - 1)) by (apply Z.pow_le_mono_r; lia). lia.
  - exfalso. assert (2 ^ d <= 2 ^ (D - 1)) by (apply Z.pow_le_mono_r; lia). lia.
Qed.

Lemma shr_1_div2 (mrs : shr_record) :
  0 <= shr_m mrs -> shr_m (shr_1 mrs) = shr_m mrs / 2.
Proof.
  destruct mrs as [m r s].
  destruct m as [|[p|p|]|p]; cbn [shr_m shr_1]; intros H; try lia.
  - reflexivity.
  - apply Z.div_unique with 1; lia.
  - apply Z.div_unique with 0; lia.
  - reflexivity.
Qed.

Lemma iter_pos_shr_1_div (p : positive) (mrs : shr_record) :
  0 <= shr_m mrs ->
  shr_m (iter_pos shr_1 p mrs) = shr_m mrs / 2 ^ Z.pos p.
Proof.
  revert mrs. induction p as [p IH|p IH|]; intros mrs H; cbn [iter_pos].
  - rewrite IH by (apply iter_pos_shr_1_nonneg, shr_1_nonneg, H).
    rewrite IH by (apply shr_1_nonneg, H).
    rewrite shr_1_div2 by exact H.
    assert (0 < 2 ^ Z.pos p) by (apply Z.pow_pos_nonneg; lia).
    rewrite !Z.div_div by lia.
    f_equal. rewrite (Pos2Z.inj_xI p).
    replace (2 * Z.pos p + 1) with (1 + Z.pos p + Z.pos p) by lia.
    rewrite !Z.pow_add_r by lia. change (2 ^ 1) with 2. ring.
  - rewrite IH by (apply iter_pos_shr_1_nonneg, H).
    rewrite IH by exact H.
    assert (0 < 2 ^ Z.pos p) by (apply Z.pow_pos_nonneg; lia).
    rewrite !Z.div_div by lia.
    f_equal. rewrite (Pos2Z.inj_xO p).
    replace (2 * Z.pos p) with (Z.pos p + Z.pos p) by lia.
    rewrite Z.pow_add_r by lia. ring.
  - rewrite shr_1_div2 by exact H. reflexivity.
Qed.

Lemma shr_m_record_of_loc (m : Z) (l : location) :
  shr_m (shr_record_of_loc m l) = m.
Proof. destruct l as [|[]]; reflexivity. Qed.

(** A mantissa of at least 53 digits whose rounded exponent is in the
    normal range is shifted to exactly 53 digits. *)
Lemma shr_fexp_normal (p : positive) (E : Z) (l : location) :
  53 <= Z.pos (digits2_pos p) ->
  -1074 <= Z.pos (digits2_pos p) + E - 53 ->
  exists mrs : shr_record,
    shr_fexp prec emax (Z.pos p) E l = (mrs, Z.pos (digits2_pos p) + E - 53) /\
    2 ^ 52 <= shr_m mrs < 2 ^ 53.
Proof.
  intros HD HE. pose proof (digits2_pos_bounds p) as [L U].
  unfold shr_fexp, shr, fexp, emin, prec, emax, Zdigits2.
  set (D := Z.pos (digits2_pos p)) in *.
  rewrite Z.max_l by lia.
  replace (D + E - 53 - E) with (D - 53) by lia.
  destruct (D - 53) as [|n|n] eqn:En; [| |lia].
  - exists (shr_record_of_loc (Z.pos p) l). split; [f_equal; lia|].
    rewrite shr_m_record_of_loc. replace D with 53 in * by lia.
    exact (conj L U).
  - exists (iter_pos shr_1 n (shr_record_of_loc (Z.pos p) l)).
    split; [f_equal; lia|].
    rewrite iter_pos_shr_1_div by (rewrite shr_m_record_of_loc; lia).
    rewrite shr_m_record_of_loc.
    assert (Hn : 0 < 2 ^ Z.pos n) by (apply Z.pow_pos_nonneg; lia).
    assert (E1 : 2 ^ (D - 1) = 2 ^ Z.pos n * 2 ^ 52).
    { rewrite <- Z.pow_add_r by lia. f_equal. lia. }
    assert (E2 : 2 ^ D = 2 ^ Z.pos n * 2 ^ 53).
    { rewrite <- Z.pow_add_r by lia. f_equal. lia. }
    split.
    + apply Z.div_le_lower_bound; lia.
    + apply Z.div_lt_upper_bound; lia.
Qed.

Lemma round_nearest_even_cases (m : Z) (l : location) :
  round_nearest_even m l = m \/ round_nearest_even m l = m + 1.
Proof.
  destruct l as [|[]]; simpl; auto. destruct (Z.even m); auto.
Qed.

(** Rounding a mantissa of at least 53 digits in the normal range gives a
    normal number: neither zero nor infinite. *)
Lemma binary_round_aux_normal (s : bool) (p : positive) (E : Z) (l : location) :
  53 <= Z.pos (digits2_pos p) ->
  -1074 <= Z.pos (digits2_pos p) + E - 53 ->
  Z.pos (digits2_pos p) + E - 52 <= 971 ->
  exists (m' : positive) (e' : Z),
    binary_round_aux prec emax s (Z.pos p) E l = S754_finite s m' e' /\
    Z.pos (digits2_pos m') = 53 /\
    Z.pos (digits2_pos p) + E - 53 <= e' <= Z.pos (digits2_pos p) + E - 52.
Proof.
  intros HD HE HU. unfold binary_round_aux.
  destruct (shr_fexp_normal p E l HD HE) as (mrs1 & -> & B1).
  set (D := Z.pos (digits2_pos p)) in *.
  set (m1 := round_nearest_even (shr_m mrs1) (loc_of_shr_record mrs1)).
  assert (Hm1 : 2 ^ 52 <= m1 <= 2 ^ 53).
  { subst m1. destruct (round_nearest_even_cases (shr_m mrs1) (loc_of_shr_record mrs1))
      as [-> | ->]; lia. }
  destruct m1 as [|q|q] eqn:Eq; [simpl in Hm1; lia| |lia].
  assert (HDq : Z.pos (digits2_pos q) = 53 \/ Z.pos (digits2_pos q) = 54).
  { destruct (Z.eq_dec (Z.pos q) (2 ^ 53)) as [H|H].
    - right. apply digits2_pos_unique. rewrite H. simpl. lia.
    - left. apply digits2_pos_unique. simpl in *. lia. }
  destruct (shr_fexp_normal q (D + E - 53) loc_Exact) as (mrs2 & -> & B2); [lia|lia|].
  destruct (shr_m mrs2) as [|m'|m'] eqn:Em; [lia| |lia].
  assert (Hle : (Z.pos (digits2_pos q) + (D + E - 53) - 53 <=? emax - prec) = true).
  { apply Z.leb_le. unfold emax, prec. lia. }
  rewrite Hle. exists m', (Z.pos (digits2_pos q) + (D + E - 53) - 53).
  split; [reflexivity|]. split; [|lia].
  apply digits2_pos_unique. simpl. lia.
Qed.

(** The quotient of two normal positive floats, away from the ends of the
    exponent range, is a normal positive float. *)
Lemma fdiv_normal (m1 m2 : positive) (e1 e2 : Z) :
  Z.pos (digits2_pos m1) = 53 -> Z.pos (digits2_pos m2) = 53 ->
  -1021 <= e1 - e2 <= 1022 ->
  exists (m' : positive) (e' : Z),
    fdiv (S754_finite false m1 e1) (S754_finite false m2 e2)
      = S754_finite false m' e' /\
    Z.pos (digits2_pos m') = 53 /\
    e1 - e2 - 53 <= e' <= e1 - e2 - 51.
Proof.
  intros D1 D2 He.
  pose proof (digits2_pos_bounds m1) as B1. rewrite D1 in B1.
  pose proof (digits2_pos_bounds m2) as B2. rewrite D2 in B2.
  unfold fdiv, SFdiv, SFdiv_core_binary, Zdigits2. rewrite D1, D2.
  unfold fexp, emin, prec, emax.
  replace (Z.min (Z.max (53 + e1 - (53 + e2) - 53) (3 - 1024 - 53)) (e1 - e2))
    with (e1 - e2 - 53) by lia.
  replace (e1 - e2 - (e1 - e2 - 53)) with 53 by lia.
  rewrite Z.shiftl_mul_pow2 by lia.
  pose proof (Z_div_mod (Z.pos m1 * 2 ^ 53) (Z.pos m2) eq_refl) as Hqr.
  destruct (Z.div_eucl (Z.pos m1 * 2 ^ 53) (Z.pos m2)) as [q r].
  destruct Hqr as [Hq Hr].
  assert (Bq : 2 ^ 52 <= q < 2 ^ 54).
  { change (2 ^ 53) with 9007199254740992 in *.
    change (2 ^ (53 - 1)) with 4503599627370496 in *.
    change (2 ^ 52) with 4503599627370496.
    change (2 ^ 54) with 18014398509481984. nia. }
  destruct q as [|pq|pq]; [simpl in Bq; lia| |lia].
  assert (Dq : Z.pos (digits2_pos pq) = 53 \/ Z.pos (digits2_pos pq) = 54).
  { destruct (Z.ltb_spec (Z.pos pq) (2 ^ 53)) as [H|H].
    - left. apply digits2_pos_unique. simpl in *. lia.
    - right. apply digits2_pos_unique. simpl in *. lia. }
  destruct (binary_round_aux_normal (xorb false false) pq (e1 - e2 - 53)
              (new_location (Z.pos m2) r)) as (m' & e' & Hm' & Dm & Be); try lia.
  exists m', e'. split; [exact Hm'|]. split; [exact Dm|lia].
Qed.


(** ** The heights of the form *)

Lemma le_value (a b : num) (p q : Q) :
  value a = Xfinite p -> value b = Xfinite q -> le a b = true -> (p <= q)%Q.
Proof.
  unfold le, compare. intros -> ->. cbn [xcompare].
  intros H. apply Qle_alt. destruct (p ?= q)%Q; discriminate || congruence.
Qed.

Lemma Qle_scaled_l (z m e : Z) :
  e < 0 -> (inject_Z z <= inject_Z m * 2 ^ e)%Q -> z * 2 ^ (- e) <= m.
Proof.
  intros He H. pose proof (Qpower_2_neg e He) as P.
  assert (Hd : 0 < 2 ^ (- e)) by (apply Z.pow_pos_nonneg; lia).
  assert (Hdq : (0 < inject_Z (2 ^ (- e)))%Q)
    by (change 0%Q with (inject_Z 0); rewrite <- Zlt_Qlt; exact Hd).
  apply (Qmult_le_compat_r _ _ (inject_Z (2 ^ (- e)))) in H; [|lra].
  rewrite <- Qmult_assoc, P, Qmult_1_r, <- inject_Z_mult in H.
  now rewrite <- Zle_Qle in H.
Qed.

Lemma Qle_scaled_r (z m e : Z) :
  e < 0 -> (inject_Z m * 2 ^ e <= inject_Z z)%Q -> m <= z * 2 ^ (- e).
Proof.
  intros He H. pose proof (Qpower_2_neg e He) as P.
  assert (Hd : 0 < 2 ^ (- e)) by (apply Z.pow_pos_nonneg; lia).
  assert (Hdq : (0 < inject_Z (2 ^ (- e)))%Q)
    by (change 0%Q with (inject_Z 0); rewrite <- Zlt_Qlt; exact Hd).
  apply (Qmult_le_compat_r _ _ (inject_Z (2 ^ (- e)))) in H; [|lra].
  rewrite <- Qmult_assoc, P, Qmult_1_r, <- inject_Z_mult in H.
  now rewrite <- Zle_Qle in H.
Qed.

Lemma Qle_unscaled_r (z m e : Z) :
  0 <= e -> (inject_Z m * 2 ^ e <= inject_Z z)%Q -> m * 2 ^ e <= z.
Proof.
  intros He H. change 2%Q with (inject_Z 2) in H.
  rewrite <- Zpower_Qpower, <- inject_Z_mult in H by exact He.
  now rewrite <- Zle_Qle in H.
Qed.

(** A float between 80 and 250 is a normal number of exponent -46 or -45. *)
Lemma height_in_range_normal (h : float) :
  valid h = true ->
  le (Int 80) (Float h) = true -> le (Float h) (Int 250) = true ->
  exists (m : positive) (e : Z),
    h = S754_finite false m e /\ Z.pos (digits2_pos m) = 53 /\ -46 <= e <= -45.
Proof.
  intros Hv H80 H250.
  destruct h as [s|[]| |[] m e]; try discriminate.
  - (* negative *)
    exfalso. pose proof (finite_value_neg m e) as Hn.
    pose proof (le_value (Int 80) (Float (S754_finite true m e)) _ _
                  eq_refl eq_refl H80) as H.
    cbn [cond_Zopp Z.opp] in H.
    assert ((inject_Z 0 < inject_Z 80)%Q) by reflexivity. lra.
  - pose proof (le_value (Int 80) (Float (S754_finite false m e)) _ _
                  eq_refl eq_refl H80) as L.
    pose proof (le_value (Float (S754_finite false m e)) (Int 250) _ _
                  eq_refl eq_refl H250) as U.
    cbn [cond_Zopp] in L, U.
    pose proof (digits2_pos_bounds m) as [B1 B2].
    unfold valid, valid_binary, bounded, canonical_mantissa, fexp, emin, prec, emax in Hv.
    apply andb_true_iff in Hv as [Hc _]. apply Z.eqb_eq in Hc.
    set (D := Z.pos (digits2_pos m)) in *.
    assert (HD : 0 < D) by (subst D; lia).
    exists m, e. split; [reflexivity|].
    destruct (Z.leb_spec 0 e) as [He|He].
    + exfalso. apply Qle_unscaled_r in U; [|exact He].
      assert (D = 53) by lia.
      pose proof (Z.pow_pos_nonneg 2 e ltac:(lia) He) as Hp.
      replace (D - 1) with 52 in B1 by lia.
      change (2 ^ 52) with 4503599627370496 in B1. nia.
    + apply Qle_scaled_l in L; [|exact He]. apply Qle_scaled_r in U; [|exact He].
      assert (Hd : 0 < 2 ^ (- e)) by (apply Z.pow_pos_nonneg; lia).
      destruct (Z.max_spec (D + e - 53) (3 - 1024 - 53)) as [[Hlt Hmax]|[Hge Hmax]];
        rewrite Hmax in Hc.
      * (* subnormal: too small *)
        exfalso. assert (D <= 53) by lia.
        assert (2 ^ D <= 2 ^ 53) by (apply Z.pow_le_mono_r; lia).
        assert (2 ^ 53 <= 2 ^ (- e)) by (apply Z.pow_le_mono_r; lia).
        lia.
      * assert (ED : D = 53) by lia. split; [exact ED|].
        rewrite ED in *. change (2 ^ (53 - 1)) with (2 ^ 52) in B1.
        assert (H47 : 2 ^ (- e) < 2 ^ 47).
        { change (2 ^ 47) with 140737488355328.
          change (2 ^ 53) with 9007199254740992 in B2. lia. }
        assert (H44 : 2 ^ 44 < 2 ^ (- e)).
        { change (2 ^ 44) with 17592186044416.
          change (2 ^ 52) with 4503599627370496 in B1. lia. }
        apply Z.pow_lt_mono_r_iff in H47; [|lia|lia].
        apply Z.pow_lt_mono_r_iff in H44; [|lia|lia].
        lia.
Qed.

(** ** The basal metabolic rate *)

Lemma all_below_spec (n : nat) (p : Z -> bool) :
  all_below n p = true -> forall z, 0 <= z < Z.of_nat n -> p z = true.
Proof.
  induction n as [|k IH]; simpl; intros H z Hz; [lia|].
  apply andb_true_iff in H as [Hk Hr].
  destruct (Z.eq_dec z (Z.of_nat k)) as [->|Hne]; [exact Hk|].
  apply IH; [exact Hr | lia].
Qed.

Lemma int_to_float_age_term (a : Z) :
  10 <= a <= 100 -> int_to_float (5 * a) = Ok (float_of_Z (5 * a)).
Proof.
  intros Ha. unfold int_to_float.
  assert (H : negb (is_infinity (float_of_Z (5 * a))) = true).
  { apply (all_below_spec 101 (fun z => negb (is_infinity (float_of_Z (5 * z)))));
      [vm_compute; reflexivity | lia]. }
  apply negb_true_iff in H. now rewrite H.
Qed.

(** On the values the form supplies (two floats and an age between 10 and
    100) both expressions yield a float: nothing raises. *)
Lemma mifflin_male_float (w h : float) (a : Z) :
  10 <= a <= 100 ->
  mifflin_male (Float w) (Float h) (Int a) =
    flt (fadd (fsub (fadd (fmul (float_of_Z 10) w) (fmul f6_25 h))
                 (float_of_Z (5 * a)))
           (float_of_Z 5)).
Proof.
  intros Ha. unfold mifflin_male. py_eval.
  rewrite (int_to_float_age_term a Ha). py_eval. reflexivity.
Qed.

Lemma mifflin_female_float (w h : float) (a : Z) :
  10 <= a <= 100 ->
  mifflin_female (Float w) (Float h) (Int a) =
    flt (fsub (fsub (fadd (fmul (float_of_Z 10) w) (fmul f6_25 h))
                 (float_of_Z (5 * a)))
           (float_of_Z 161)).
Proof.
  intros Ha. unfold mifflin_female. py_eval.
  rewrite (int_to_float_age_term a Ha). py_eval. reflexivity.
Qed.

(** C4.  [bmr_mifflin] is the Mifflin-St Jeor equation: for gender male it
    is 10*weight + 6.25*height - 5*age + 5, for female and for other, as
    for every gender that does not read male, it is
    10*weight + 6.25*height - 5*age - 161.  The script (line 107) passes
    other on as female, so the same holds of its [bmr].  On two floats and
    an age between 10 and 100 the value is a float and nothing raises. *)
Theorem bmr_mifflin_by_gender (w h a : num) :
  bmr_mifflin w h a "male" = mifflin_male w h a /\
  bmr_mifflin w h a "female" = mifflin_female w h a /\
  bmr_mifflin w h a "other" = mifflin_female w h a /\
  (forall g, lower g = "male" -> bmr_mifflin w h a g = mifflin_male w h a) /\
  (forall g, lower g <> "male" -> bmr_mifflin w h a g = mifflin_female w h a) /\
  bmr_mifflin w h a (formula_gender "male") = mifflin_male w h a /\
  bmr_mifflin w h a (formula_gender "female") = mifflin_female w h a /\
  bmr_mifflin w h a (formula_gender "other") = mifflin_female w h a /\
  (forall (x y : float) (n : Z), 10 <= n <= 100 ->
     exists r s : float,
       mifflin_male (Float x) (Float y) (Int n) = flt r /\
       mifflin_female (Float x) (Float y) (Int n) = flt s).
Proof.
  repeat split; try reflexivity.
  - intros g Hg. unfold bmr_mifflin. rewrite Hg. reflexivity.
  - intros g Hg. unfold bmr_mifflin.
    destruct (String.eqb_spec (lower g) "male") as [E|_]; [contradiction|reflexivity].
  - intros x y n Hn. eexists. eexists. split.
    + apply mifflin_male_float, Hn.
    + apply mifflin_female_float, Hn.
Qed.

(** The gender may be written in any case: [gender.lower()]. *)
Lemma bmr_mifflin_by_gender_witness :
  bmr_mifflin (Int 70) (Int 175) (Int 25) "Male" =
    mifflin_male (Int 70) (Int 175) (Int 25) /\
  bmr_mifflin (Int 70) (Int 175) (Int 25) "diverse" =
    mifflin_female (Int 70) (Int 175) (Int 25) /\
  exists r s : float,
    mifflin_male (Float (float_of_Z 70)) (Float (float_of_Z 175)) (Int 25) = flt r /\
    mifflin_female (Float (float_of_Z 70)) (Float (float_of_Z 175)) (Int 25) = flt s.
Proof.
  pose proof (bmr_mifflin_by_gender (Int 70) (Int 175) (Int 25))
    as (_ & _ & _ & Hm & Hf & _ & _ & _ & Hr).
  split; [apply Hm; reflexivity|].
  split; [apply Hf; discriminate|].
  apply Hr. lia.
Defined.

(** C1 (as the code has it).  The specification's test vector evaluates to
    1673.75: 700 + 1093.75 - 125 + 5, every step exact in binary64. *)
Theorem bmr_test_vector :
  bmr_mifflin (Int 70) (Int 175) (Int 25) "male" = flt (literal 167375 100) /\
  bmr_mifflin (Float (float_of_Z 70)) (Float (float_of_Z 175)) (Int 25) "male"
    = flt (literal 167375 100) /\
  exactly (Float (literal 167375 100)) (167375 # 100) = true /\
  10 * 70 * 100 + 625 * 175 - 5 * 25 * 100 + 5 * 100 = 167375.
Proof. repeat split; vm_compute; reflexivity. Qed.

(** C1, refuted as stated: the value returned is not 1733.75. *)
Lemma bmr_test_vector_is_not_1733_75 :
  exists v : num,
    bmr_mifflin (Int 70) (Int 175) (Int 25) "male" = Ok v /\
    eq v (Float (literal 173375 100)) = false /\
    lt v (Float (literal 173375 100)) = true.
Proof. exists (Float (literal 167375 100)). repeat split; vm_compute; reflexivity. Qed.

(** ** The calorie target *)

Lemma sub_total (a : num) (z : Z) :
  is_infinity (float_of_Z z) = false -> exists d, sub a (Int z) = Ok d.
Proof.
  intros Hz. destruct a as [x|f]; [eexists; reflexivity|].
  unfold sub, arith, to_float, int_to_float. cbn [bind]. rewrite Hz.
  eexists; reflexivity.
Qed.

Lemma add_total (a : num) (z : Z) :
  is_infinity (float_of_Z z) = false -> exists d, add a (Int z) = Ok d.
Proof.
  intros Hz. destruct a as [x|f]; [eexists; reflexivity|].
  unfold add, arith, to_float, int_to_float. cbn [bind]. rewrite Hz.
  eexists; reflexivity.
Qed.

Lemma le_max_l (a b : num) : le a a = true -> le a (max a b) = true.
Proof.
  intros Ha. unfold max, gt. destruct (lt a b) eqn:E; [now apply lt_le|exact Ha].
Qed.

(** C3.  [calorie_target] is max(1200, tdee - 500) for the goal lose,
    tdee + 300 for gain and tdee for maintain, for every tdee, and in each
    case it returns: the subtraction and the addition cannot raise.
    calorie_target(2000, "lose") is 1500 and calorie_target(1400, "lose")
    is 1200, on integers as on floats. *)
Theorem calorie_target_by_goal (tdee : num) :
  (exists d, sub tdee (Int 500) = Ok d /\
             calorie_target tdee "lose" = Ok (max (Int 1200) d)) /\
  (exists r, add tdee (Int 300) = Ok r /\ calorie_target tdee "gain" = Ok r) /\
  calorie_target tdee "maintain" = Ok tdee /\
  calorie_target (Int 2000) "lose" = int 1500 /\
  calorie_target (Int 1400) "lose" = int 1200 /\
  calorie_target (Float (float_of_Z 2000)) "lose" = flt (float_of_Z 1500) /\
  calorie_target (Float (float_of_Z 1400)) "lose" = int 1200.
Proof.
  split; [|split; [|repeat split; vm_compute; reflexivity]].
  - destruct (sub_total tdee 500 eq_refl) as [d Hd]. exists d. split; [exact Hd|].
    unfold calorie_target, lift2. cbn [String.eqb Ascii.eqb Bool.eqb bind].
    now rewrite Hd.
  - destruct (add_total tdee 300 eq_refl) as [r Hr]. exists r. split; [exact Hr|].
    unfold calorie_target, lift2. cbn [String.eqb Ascii.eqb Bool.eqb bind].
    exact Hr.
Qed.

(** The floor of the goal lose: whatever tdee is, the target is returned
    and is at least 1200. *)
Lemma calorie_target_lose_floor (tdee : num) :
  exists c, calorie_target tdee "lose" = Ok c /\ le (Int 1200) c = true.
Proof.
  destruct (sub_total tdee 500 eq_refl) as [d Hd].
  exists (max (Int 1200) d). split.
  - unfold calorie_target, lift2. cbn [String.eqb Ascii.eqb Bool.eqb bind].
    now rewrite Hd.
  - now apply le_max_l.
Qed.

(** [calorie_target] has no error path. *)
Lemma calorie_target_returns (tdee : num) (g : string) :
  exists c, calorie_target tdee g = Ok c.
Proof.
  unfold calorie_target, lift2. cbn [bind].
  destruct (String.eqb g "lose").
  - destruct (sub_total tdee 500 eq_refl) as [d ->]. eexists; reflexivity.
  - destruct (String.eqb g "gain"); [|eexists; reflexivity].
    destruct (add_total tdee 300 eq_refl) as [d ->]. eexists; reflexivity.
Qed.

Lemma bmr_mifflin_formula_gender (w h a : num) (g : string) :
  bmr_mifflin w h a (formula_gender g) =
    if String.eqb g "male" then mifflin_male w h a else mifflin_female w h a.
Proof.
  unfold formula_gender.
  destruct (String.eqb_spec g "male") as [->|Hm]; [reflexivity|].
  destruct (String.eqb_spec g "female") as [->|Hf]; reflexivity.
Qed.

Lemma activity_multiplier_float (level : string) :
  exists m : float, activity_multiplier level = Float m.
Proof.
  unfold activity_multiplier. cbn [get].
  repeat match goal with
         | |- context [if String.eqb ?k level then _ else _] =>
             destruct (String.eqb k level); [eexists; reflexivity|]
         end.
  eexists; reflexivity.
Qed.

(** The script's [bmr] and [tdee] on the values of the form. *)
Lemma energy_needs_returns (u : UserInput) :
  10 <= age u <= 100 ->
  exists (b t : float) (c : num),
    energy_needs u = Ok (Float b, Float t, c) /\
    calorie_target (Float t) (goal u) = Ok c.
Proof.
  intros Ha. unfold energy_needs. rewrite bmr_mifflin_formula_gender.
  destruct (activity_multiplier_float (exercise_level u)) as [m Hm]. rewrite Hm.
  assert (Hb : exists b : float,
             (if String.eqb (gender u) "male"
              then mifflin_male (Float (weight u)) (Float (height u)) (Int (age u))
              else mifflin_female (Float (weight u)) (Float (height u)) (Int (age u)))
             = flt b).
  { destruct (String.eqb (gender u) "male"); eexists.
    - now apply mifflin_male_float.
    - now apply mifflin_female_float. }
  destruct Hb as [b ->]. cbn [bind]. py_eval.
  destruct (calorie_target_returns (Float (fmul b m)) (goal u)) as [c Hc].
  exists b, (fmul b m), c. rewrite Hc. split; reflexivity.
Qed.

(** C2 (as the code has it).  For the goal lose the calorie target of the
    script is computed and is at least 1200, whatever the weight and the
    height, for every age the form accepts.  (The floor is not applied to
    the goals maintain and gain.) *)
Theorem lose_target_at_least_1200 (u : UserInput) :
  10 <= age u <= 100 ->
  goal u = "lose" ->
  exists b t c : num,
    energy_needs u = Ok (b, t, c) /\ le (Int 1200) c = true.
Proof.
  intros Ha Hg.
  destruct (energy_needs_returns u Ha) as (b & t & c & He & Hc).
  exists (Float b), (Float t), c. split; [exact He|].
  rewrite Hg in Hc.
  destruct (calorie_target_lose_floor (Float t)) as (c' & Hc' & Hle).
  congruence.
Qed.

Lemma lose_target_at_least_1200_witness :
  in_range (lightest_oldest "lose") = true /\
  exists b t c : num,
    energy_needs (lightest_oldest "lose") = Ok (b, t, c) /\
    le (Int 1200) c = true.
Proof.
  split; [vm_compute; reflexivity|].
  apply (lose_target_at_least_1200 (lightest_oldest "lose")).
  - simpl; lia.
  - reflexivity.
Defined.

(** C2, refuted as stated: within the accepted ranges the goals maintain
    and gain give targets of 46.8 and 346.8 kcal. *)
Lemma maintain_and_gain_targets_below_1200 :
  in_range (lightest_oldest "maintain") = true /\
  in_range (lightest_oldest "gain") = true /\
  valid (weight (lightest_oldest "maintain")) = true /\
  valid (height (lightest_oldest "maintain")) = true /\
  (exists b t : num,
     energy_needs (lightest_oldest "maintain") = Ok (b, t, Float (literal 468 10)) /\
     lt (Float (literal 468 10)) (Int 1200) = true) /\
  (exists b t : num,
     energy_needs (lightest_oldest "gain") = Ok (b, t, Float (literal 3468 10)) /\
     lt (Float (literal 3468 10)) (Int 1200) = true).
Proof.
  repeat split; try (vm_compute; reflexivity);
    eexists; eexists; split; vm_compute; reflexivity.
Qed.

(** ** The activity multiplier *)

(** C8 (as the code has it).  [activity_multiplier] is the lookup
    sedentary 1.2, light 1.375, moderate 1.55, active 1.725 and
    "very active", written with a space, 1.9; every other level gives the
    default 1.2.  So activity_multiplier("moderate") is 1.55 and
    activity_multiplier("unknown") is 1.2. *)
Theorem activity_multiplier_table :
  activity_multiplier "sedentary" = Float (literal 12 10) /\
  activity_multiplier "light" = Float (literal 1375 1000) /\
  activity_multiplier "moderate" = Float (literal 155 100) /\
  activity_multiplier "active" = Float (literal 1725 1000) /\
  activity_multiplier "very active" = Float (literal 19 10) /\
  (forall level, ~ In level activity_levels ->
     activity_multiplier level = Float (literal 12 10)) /\
  activity_multiplier "unknown" = Float (literal 12 10).
Proof.
  do 5 (split; [reflexivity|]). split; [|reflexivity].
  intros level Hl. unfold activity_multiplier. cbn [get].
  repeat match goal with
         | |- context [if String.eqb ?k level then _ else _] =>
             destruct (String.eqb_spec k level) as [E|_];
             [exfalso; apply Hl; rewrite <- E; simpl; tauto|]
         end.
  reflexivity.
Qed.

(** The lookup is by the exact string: another capitalisation is not in
    the dict. *)
Lemma activity_multiplier_table_witness :
  activity_multiplier "Very Active" = Float (literal 12 10).
Proof.
  pose proof activity_multiplier_table as (_ & _ & _ & _ & _ & Hdefault & _).
  apply Hdefault.
  simpl. intros [H|[H|[H|[H|[H|[]]]]]]; discriminate H.
Defined.

(** C8, refuted as stated: the level spelled with an underscore is not a
    key of the dict and gets the default 1.2, which is not 1.9. *)
Lemma very_active_with_underscore_is_default :
  activity_multiplier "very_active" = Float (literal 12 10) /\
  eq (Float (literal 12 10)) (Float (literal 19 10)) = false /\
  activity_multiplier "very active" = Float (literal 19 10).
Proof. repeat split. Qed.

(** ** The BMI and its category *)

Lemma lt_false_of_le (a b c : num) :
  lt a c = false -> le a b = true -> lt b c = false.
Proof.
  intros Hac Hab. destruct (lt b c) eqn:E; [|reflexivity].
  now rewrite (le_lt_trans a b c Hab E) in Hac.
Qed.

(** C5 (as the code has it).  [bmi_category] answers Underweight below
    18.5, "Normal weight" from 18.5 up to 25, Overweight from 25 up to 30,
    Obesity from 30 on, and Unknown for an absent BMI.  calc_bmi(70, 175)
    is 70/1.75**2, between 22.85 and 22.87, and its category is
    "Normal weight". *)
Theorem bmi_category_thresholds (b : num) :
  (lt b (Float f18_5) = true -> bmi_category (Some b) = "Underweight") /\
  (le (Float f18_5) b = true -> lt b (Int 25) = true ->
     bmi_category (Some b) = "Normal weight") /\
  (le (Int 25) b = true -> lt b (Int 30) = true ->
     bmi_category (Some b) = "Overweight") /\
  (le (Int 30) b = true -> bmi_category (Some b) = "Obesity") /\
  bmi_category None = "Unknown" /\
  exactly (Float f18_5) (185 # 10) = true /\
  (exists x : float,
     calc_bmi (Int 70) (Int 175) = Ok (Some (Float x)) /\
     x = fdiv (float_of_Z 70) (fmul (literal 175 100) (literal 175 100)) /\
     lt (Float (literal 2285 100)) (Float x) = true /\
     lt (Float x) (Float (literal 2287 100)) = true /\
     bmi_category (Some (Float x)) = "Normal weight").
Proof.
  split; [|split; [|split; [|split; [|split; [reflexivity|split; [reflexivity|]]]]]].
  - intros H. unfold bmi_category. now rewrite H.
  - intros H1 H2. unfold bmi_category.
    now rewrite (le_not_lt _ _ H1), H2.
  - intros H1 H2. unfold bmi_category.
    rewrite (lt_false_of_le (Int 25) b (Float f18_5) eq_refl H1).
    now rewrite (le_not_lt _ _ H1), H2.
  - intros H. unfold bmi_category.
    rewrite (lt_false_of_le (Int 30) b (Float f18_5) eq_refl H).
    rewrite (lt_false_of_le (Int 30) b (Int 25) eq_refl H).
    now rewrite (le_not_lt _ _ H).
  - exists (fdiv (float_of_Z 70) (fmul (literal 175 100) (literal 175 100))).
    repeat split; vm_compute; reflexivity.
Qed.

Lemma bmi_category_thresholds_witness :
  bmi_category (Some (Int 17)) = "Underweight" /\
  bmi_category (Some (Float (literal 185 10))) = "Normal weight" /\
  bmi_category (Some (Int 25)) = "Overweight" /\
  bmi_category (Some (Float (literal 2999 100))) = "Overweight" /\
  bmi_category (Some (Int 30)) = "Obesity".
Proof.
  split; [|split; [|split; [|split]]].
  - pose proof (bmi_category_thresholds (Int 17)) as (H & _).
    apply H. vm_compute; reflexivity.
  - pose proof (bmi_category_thresholds (Float (literal 185 10))) as (_ & H & _).
    apply H; vm_compute; reflexivity.
  - pose proof (bmi_category_thresholds (Int 25)) as (_ & _ & H & _).
    apply H; vm_compute; reflexivity.
  - pose proof (bmi_category_thresholds (Float (literal 2999 100))) as (_ & _ & H & _).
    apply H; vm_compute; reflexivity.
  - pose proof (bmi_category_thresholds (Int 30)) as (_ & _ & _ & H & _).
    apply H. vm_compute; reflexivity.
Defined.

(** C5, refuted as stated: the category of the band from 18.5 to 25 is the
    string "Normal weight", not "Normal". *)
Lemma normal_band_is_labelled_normal_weight :
  exists b : num,
    calc_bmi (Int 70) (Int 175) = Ok (Some b) /\
    le (Float f18_5) b = true /\ lt b (Int 25) = true /\
    bmi_category (Some b) = "Normal weight" /\
    String.eqb (bmi_category (Some b)) "Normal" = false.
Proof.
  exists (Float (fdiv (float_of_Z 70) (fmul (literal 175 100) (literal 175 100)))).
  repeat split; vm_compute; reflexivity.
Qed.

(** ** The BMI of two floats *)

Lemma f100_0_finite : f100_0 = S754_finite false 7036874417766400 (-46).
Proof. vm_compute. reflexivity. Qed.

(** [calc_bmi] on two floats, statement by statement. *)
Lemma calc_bmi_float (w h : float) :
  calc_bmi (Float w) (Float h) =
    if le (Float (fdiv h f100_0)) (Int 0) then Ok None
    else
      bind (float_pow2 (fdiv h f100_0)) (fun sq =>
      if is_zero sq then Raise ZeroDivisionError
      else Ok (Some (Float (fdiv w sq)))).
Proof.
  unfold calc_bmi. py_eval. change (is_zero f100_0) with false. cbv iota.
  cbn [bind]. destruct (le (Float (fdiv h f100_0)) (Int 0)); [reflexivity|].
  unfold pow2.
  destruct (float_pow2 (fdiv h f100_0)) as [sq|e]; cbn [bind to_float]; [|reflexivity].
  destruct (is_zero sq); reflexivity.
Qed.






(** ** The macro split *)

Lemma macro_split_returns_iff (c r w : num) (m : macros) :
  macro_split c r w = Ok m <->
  exists p f g : num,
    protein_grams r w = Ok p /\ fat_grams c = Ok f /\ carb_grams c r w = Ok g /\
    round p = Ok (protein_g m) /\ round f = Ok (fat_g m) /\
    round g = Ok (carb_g m).
Proof.
  unfold macro_split, protein_grams, fat_grams, carb_grams, carb_calories, lift2.
  cbn [bind]. split.
  - intros H. bind_cases H. injection H as <-. cbn [protein_g fat_g carb_g].
    do 3 eexists.
    split; [reflexivity|]. split; [bind_replay; eassumption|].
    split; [bind_replay; reflexivity|]. auto.
  - intros (p & f & g & Hp & Hf & Hg & Rp & Rf & Rg).
    rewrite Hp in *. cbn [bind] in *.
    bind_cases Hf. bind_cases Hg. injection Hg as <-.
    bind_replay. destruct m; reflexivity.
Qed.

Lemma float_of_Z_4 : float_of_Z 4 = S754_finite false 4503599627370496 (-50).
Proof. vm_compute. reflexivity. Qed.

(** Rounded, the floor at 0 may be applied before or after the division
    by 4. *)
Lemma floor_commutes_with_quarter (x : float) :
  bind (bind (truediv (Float x) (Int 4)) (fun q => Ok (max (Int 0) q))) round =
  bind (truediv (max (Int 0) (Float x)) (Int 4)) round.
Proof.
  unfold truediv at 1. cbn [to_float bind].
  change (int_to_float 4) with (Ok (float_of_Z 4)). cbn [bind].
  change (is_zero (float_of_Z 4)) with false. cbv iota. cbn [bind].
  assert (Hneg : forall q, le (Float q) (Int 0) = true ->
                 round (max (Int 0) (Float q)) = Ok 0).
  { intros q Hq. unfold max, gt. apply le_not_lt in Hq. now rewrite Hq. }
  assert (Hzero : bind (truediv (Int 0) (Int 4)) round = Ok 0) by reflexivity.
  destruct x as [s|[]| |[] m e].
  - (* a zero *) rewrite float_of_Z_4. reflexivity.
  - (* -inf *) rewrite float_of_Z_4. reflexivity.
  - (* +inf *) rewrite float_of_Z_4. reflexivity.
  - (* NaN *) reflexivity.
  - (* negative *)
    rewrite Hneg.
    + unfold max, gt.
      rewrite (le_not_lt _ _ (signed_le_zero _ (signed_finite true m e))).
      symmetry; exact Hzero.
    + rewrite float_of_Z_4. apply signed_le_zero, (fdiv_finite_signed true false).
  - (* positive *)
    destruct (signed_gt_zero _ (signed_finite false m e)) as [[Hz _]|[_ Hx]];
      [discriminate Hz|].
    unfold max at 2. rewrite Hx.
    unfold truediv. cbn [to_float bind].
    change (int_to_float 4) with (Ok (float_of_Z 4)). cbn [bind].
    change (is_zero (float_of_Z 4)) with false. cbv iota. cbn [bind].
    assert (Hs : signed false (fdiv (S754_finite false m e) (float_of_Z 4))).
    { rewrite float_of_Z_4. apply (fdiv_finite_signed false false). }
    destruct (signed_gt_zero _ Hs) as [[Hz Hq]|[_ Hq]]; unfold max; rewrite Hq.
    + destruct (fdiv _ _); try discriminate Hz. reflexivity.
    + reflexivity.
Qed.

Lemma arith_float_r (iop : Z -> Z -> Z) (fop : float -> float -> float)
    (a x : num) (f : float) :
  arith iop fop a (Float f) = Ok x -> exists g : float, x = Float g.
Proof.
  unfold arith. destruct a as [z|h]; cbn [to_float bind].
  - destruct (int_to_float z); cbn [bind]; [|discriminate].
    intros [= <-]. eexists; reflexivity.
  - intros [= <-]. eexists; reflexivity.
Qed.

Lemma carb_calories_float (c r w x : num) :
  carb_calories c r w = Ok x -> exists f : float, x = Float f.
Proof.
  unfold carb_calories, lift2. cbn [bind]. intros H. bind_cases H.
  destruct (arith_float_r _ _ _ _ _ E2) as [g ->].
  exact (arith_float_r _ _ _ _ _ H).
Qed.

Lemma carb_grams_floor_first_rounded (c r w : num) :
  bind (carb_grams c r w) round = bind (carb_grams_floor_first c r w) round.
Proof.
  unfold carb_grams, carb_grams_floor_first, lift2.
  destruct (carb_calories c r w) as [x|e] eqn:E; cbn [bind]; [|reflexivity].
  destruct (carb_calories_float c r w x E) as [f ->].
  apply floor_commutes_with_quarter.
Qed.

(** C7 (as the code has it).  [macro_split] returns the three quantities
    rounded to the nearest integer (ties to the even one):
    protein_g = round(protein_g_per_kg * weight),
    fat_g = round((calories * 0.30) / 9) and
    carb_g = round(max(0, calories - 4 * protein - 0.30 * calories) / 4),
    where the floor at 0 may as well be applied after the division by 4,
    as the code does.  The ratio is 1.6 for the goals lose and gain and 1.2
    for maintain, and macro_split(2000, 1.6, 70) is 112, 67 and 238. *)
Theorem macro_split_rounded (c r w : num) :
  (forall m : macros,
     macro_split c r w = Ok m <->
     exists p f g : num,
       protein_grams r w = Ok p /\ fat_grams c = Ok f /\
       carb_grams c r w = Ok g /\
       round p = Ok (protein_g m) /\ round f = Ok (fat_g m) /\
       round g = Ok (carb_g m)) /\
  bind (carb_grams c r w) round = bind (carb_grams_floor_first c r w) round /\
  protein_g_per_kg "lose" = Float (literal 16 10) /\
  protein_g_per_kg "gain" = Float (literal 16 10) /\
  protein_g_per_kg "maintain" = Float (literal 12 10) /\
  macro_split (Int 2000) (Float (literal 16 10)) (Int 70) =
    Ok {| protein_g := 112; fat_g := 67; carb_g := 238 |}.
Proof.
  split; [intros m; apply macro_split_returns_iff|].
  split; [apply carb_grams_floor_first_rounded|].
  repeat split; vm_compute; reflexivity.
Qed.

(** C7, refuted as stated: the fat returned for 2000 kcal is the integer
    67, not (0.30 * 2000) / 9 = 66.67, and the protein returned for
    1.6 g/kg at 70.3 kg is 112, not 112.48. *)
Lemma macro_split_returns_integers :
  macro_split (Int 2000) (Float (literal 16 10)) (Int 70) =
    Ok {| protein_g := 112; fat_g := 67; carb_g := 238 |} /\
  fat_grams (Int 2000) = flt (literal 600 9) /\
  lt (Float (literal 600 9)) (Int 67) = true /\
  eq (Float (literal 600 9)) (Int 67) = false /\
  (exists m : macros,
     macro_split (Int 2000) (Float (literal 16 10)) (Float (literal 703 10)) = Ok m /\
     protein_g m = 112) /\
  (exists p : float,
     protein_grams (Float (literal 16 10)) (Float (literal 703 10)) = flt p /\
     lt (Int 112) (Float p) = true).
Proof.
  split; [vm_compute; reflexivity|].
  split; [vm_compute; reflexivity|].
  split; [vm_compute; reflexivity|].
  split; [vm_compute; reflexivity|].
  split.
  - eexists. split; [vm_compute; reflexivity|reflexivity].
  - exists (fmul (literal 16 10) (literal 703 10)).
    split; vm_compute; reflexivity.
Qed.

(** ** The script *)

Lemma calculations_fields (u : UserInput) (d : DerivedMetrics) :
  calculations u = Ok d ->
  calc_bmi (Float (weight u)) (Float (height u)) = Ok (bmi d) /\
  category d = bmi_category (bmi d) /\
  energy_needs u = Ok (bmr d, tdee d, cal_target d) /\
  macro_split (cal_target d) (protein_g_per_kg (goal u)) (Float (weight u))
    = Ok (macros_ d) /\
  hydration u = Ok (recommended_cups d).
Proof.
  unfold calculations. intros H.
  destruct (calc_bmi _ _) as [b|] eqn:Eb; cbn [bind] in H; [|discriminate].
  destruct (energy_needs u) as [[[x y] z]|] eqn:Ee; cbn [bind] in H; [|discriminate].
  destruct (macro_split _ _ _) as [m|] eqn:Em; cbn [bind] in H; [|discriminate].
  destruct (hydration u) as [n|] eqn:Eh; cbn [bind] in H; [|discriminate].
  injection H as <-. cbn. auto.
Qed.

(** The reported water intake is not read by the calculations. *)
Lemma calculations_ignore_water_cups (u : UserInput) (n : Z) :
  calculations (with_water_cups n u) = calculations u.
Proof. reflexivity. Qed.



(** ** The hydration check *)

Lemma div_nearest_even_bounds (m d : Z) :
  0 < d -> 0 <= m ->
  (2 * div_nearest_even m d - 1) * d <= 2 * m
    <= (2 * div_nearest_even m d + 1) * d.
Proof.
  intros Hd Hm. unfold div_nearest_even. cbv zeta.
  pose proof (Z.div_mod m d ltac:(lia)) as E.
  pose proof (Z.mod_pos_bound m d Hd) as B.
  destruct (Z.compare_spec (2 * (m mod d)) d) as [H|H|H];
    [destruct (Z.even (m / d))| |]; nia.
Qed.

Lemma half_bounds (K x D : Q) :
  (0 < D ->
   (2 * K - 1) * D <= 2 * x * D -> 2 * x * D <= (2 * K + 1) * D ->
   K - (1 # 2) <= x <= K + (1 # 2))%Q.
Proof.
  intros HD L1 L2.
  pose proof (proj1 (Qmult_le_r _ _ _ HD) L1) as M1.
  pose proof (proj1 (Qmult_le_r _ _ _ HD) L2) as M2.
  split; lra.
Qed.

Lemma half_bounds_scaled (zk zm e : Z) :
  e < 0 ->
  (2 * zk - 1) * 2 ^ (- e) <= 2 * zm <= (2 * zk + 1) * 2 ^ (- e) ->
  (inject_Z zk - (1 # 2) <= inject_Z zm * 2 ^ e <= inject_Z zk + (1 # 2))%Q.
Proof.
  intros He [L1 L2].
  pose proof (Qpower_2_neg e He) as P.
  assert (Hd : 0 < 2 ^ (- e)) by (apply Z.pow_pos_nonneg; lia).
  set (d := 2 ^ (- e)) in *.
  assert (Hdq : (0 < inject_Z d)%Q)
    by (change 0%Q with (inject_Z 0); rewrite <- Zlt_Qlt; exact Hd).
  assert (X : (inject_Z zm * 2 ^ e * inject_Z d == inject_Z zm)%Q).
  { rewrite <- Qmult_assoc, P. ring. }
  rewrite Zle_Qle in L1, L2.
  rewrite !inject_Z_mult in L1, L2.
  rewrite inject_Z_plus, inject_Z_mult in L2.
  unfold Z.sub in L1. rewrite inject_Z_plus, inject_Z_mult in L1.
  change (inject_Z 2) with 2%Q in *. change (inject_Z 1) with 1%Q in *.
  change (inject_Z (- (1))) with (- 1)%Q in *.
  apply (half_bounds _ _ (inject_Z d) Hdq).
  - setoid_replace (2 * (inject_Z zm * 2 ^ e) * inject_Z d)%Q
      with (2 * (inject_Z zm * 2 ^ e * inject_Z d))%Q by ring.
    rewrite X. setoid_replace (2 * inject_Z zk - 1)%Q
      with (2 * inject_Z zk + - 1)%Q by ring. exact L1.
  - setoid_replace (2 * (inject_Z zm * 2 ^ e) * inject_Z d)%Q
      with (2 * (inject_Z zm * 2 ^ e * inject_Z d))%Q by ring.
    rewrite X. exact L2.
Qed.

(** [float_round] answers an integer nearest to the value of the float. *)
Lemma float_round_nearest (f : float) (z : Z) (q : Q) :
  float_round f = Ok z -> float_value f = Xfinite q ->
  (inject_Z z - (1 # 2) <= q <= inject_Z z + (1 # 2))%Q.
Proof.
  destruct f as [s| | |s m e]; try discriminate.
  - intros [= <-] [= <-]. split; discriminate.
  - unfold float_round, float_value. intros [= <-] [= <-].
    destruct (Z.leb_spec 0 e) as [He|He].
    + assert (E : (inject_Z (cond_Zopp s (Z.pos m * 2 ^ e))
                   == inject_Z (cond_Zopp s (Z.pos m)) * 2 ^ e)%Q).
      { destruct s; unfold cond_Zopp;
          rewrite ?inject_Z_opp, inject_Z_mult, (Zpower_Qpower 2 e He);
          change (inject_Z 2) with 2%Q; ring. }
      rewrite E. split; lra.
    + apply (half_bounds_scaled _ _ e He).
      assert (Hd : 0 < 2 ^ (- e)) by (apply Z.pow_pos_nonneg; lia).
      pose proof (div_nearest_even_bounds (Z.pos m) (2 ^ (- e)) Hd ltac:(lia)) as N.
      destruct s; unfold cond_Zopp; lia.
Qed.

(** C10.  The recommended water intake is round((30 * weight) / 250)
    cups: 30 ml per kg, in cups of 250 ml, rounded to a nearest integer
    (a tie to the even one).  For 70 kg it is 8 cups. *)
Theorem recommended_cups_formula (u : UserInput) :
  int 30 *! flt (weight u) /! int 250 = flt (water_quotient (weight u)) /\
  hydration u = round (Float (water_quotient (weight u))) /\
  (forall d : DerivedMetrics,
     calculations u = Ok d ->
     round (Float (water_quotient (weight u))) = Ok (recommended_cups d)) /\
  (forall (cups : Z) (x : Q),
     hydration u = Ok cups ->
     float_value (water_quotient (weight u)) = Xfinite x ->
     (inject_Z cups - (1 # 2) <= x <= inject_Z cups + (1 # 2))%Q) /\
  hydration default_input = Ok 8.
Proof.
  assert (E : int 30 *! flt (weight u) /! int 250
              = flt (water_quotient (weight u))).
  { py_eval. reflexivity. }
  assert (H : hydration u = round (Float (water_quotient (weight u)))).
  { unfold hydration.
    change (q <- int 30 *! flt (weight u) /! int 250 ;; round q
            = round (Float (water_quotient (weight u)))).
    now rewrite E. }
  split; [exact E|]. split; [exact H|]. split; [|split].
  - intros d Hd. apply calculations_fields in Hd as (_ & _ & _ & _ & Hh).
    now rewrite <- H.
  - intros cups x Hc Hx. rewrite H in Hc.
    exact (float_round_nearest _ _ _ Hc Hx).
  - vm_compute. reflexivity.
Qed.

Lemma recommended_cups_formula_witness :
  exists x : Q,
    float_value (water_quotient (weight default_input)) = Xfinite x /\
    (inject_Z 8 - (1 # 2) <= x <= inject_Z 8 + (1 # 2))%Q.
Proof.
  pose proof (recommended_cups_formula default_input) as (_ & _ & _ & Hn & H8).
  destruct (float_value (water_quotient (weight default_input)))
    as [| |x|] eqn:Ex; try (vm_compute in Ex; discriminate Ex).
  exists x. split; [reflexivity|].
  exact (Hn 8 x H8 eq_refl).
Defined.


(** * Bounds through the float arithmetic

    Rounding to nearest never crosses an integer below 2 ** 53, so that
    integer bounds on the operands of a float operation give integer
    bounds on its result, and a result within bounds is finite. *)

(** ** Shifts that lose nothing *)

Lemma shr_1_exact (mrs : shr_record) :
  0 <= shr_m mrs -> Z.even (shr_m mrs) = true ->
  shr_r mrs = false -> shr_s mrs = false ->
  shr_r (shr_1 mrs) = false /\ shr_s (shr_1 mrs) = false.
Proof.
  destruct mrs as [m r s]. cbn [shr_m shr_r shr_s]. intros Hm He -> ->.
  destruct m as [|[p|p|]|p]; try discriminate He; try lia; split; reflexivity.
Qed.

Lemma iter_pos_shr_1_exact (p : positive) (mrs : shr_record) (k : Z) :
  0 <= shr_m mrs -> shr_m mrs = k * 2 ^ Z.pos p ->
  shr_r mrs = false -> shr_s mrs = false ->
  shr_r (iter_pos shr_1 p mrs) = false /\ shr_s (iter_pos shr_1 p mrs) = false.
Proof.
  revert mrs k. induction p as [p IH|p IH|]; intros mrs k Hm Hk Hr Hs; cbn [iter_pos].
  - assert (Hp : 0 < 2 ^ Z.pos p) by (apply Z.pow_pos_nonneg; lia).
    assert (E : shr_m mrs = (k * 2 ^ Z.pos p * 2 ^ Z.pos p) * 2).
    { rewrite Hk, (Pos2Z.inj_xI p).
      replace (2 * Z.pos p + 1) with (Z.pos p + Z.pos p + 1) by lia.
      rewrite !Z.pow_add_r by lia. change (2 ^ 1) with 2. ring. }
    destruct (shr_1_exact mrs Hm) as [Hr1 Hs1]; [|exact Hr|exact Hs|].
    { rewrite E, Z.even_mul. cbn. now rewrite orb_true_r. }
    assert (M1 : shr_m (shr_1 mrs) = (k * 2 ^ Z.pos p) * 2 ^ Z.pos p).
    { rewrite shr_1_div2 by exact Hm. rewrite E. now rewrite Z.div_mul by lia. }
    assert (N1 : 0 <= shr_m (shr_1 mrs)) by (apply shr_1_nonneg, Hm).
    destruct (IH (shr_1 mrs) (k * 2 ^ Z.pos p) N1 M1 Hr1 Hs1) as [Hr2 Hs2].
    apply (IH _ k); [apply iter_pos_shr_1_nonneg, N1| |exact Hr2|exact Hs2].
    rewrite iter_pos_shr_1_div by exact N1. rewrite M1.
    now rewrite Z.div_mul by lia.
  - assert (Hp : 0 < 2 ^ Z.pos p) by (apply Z.pow_pos_nonneg; lia).
    assert (E : shr_m mrs = (k * 2 ^ Z.pos p) * 2 ^ Z.pos p).
    { rewrite Hk, (Pos2Z.inj_xO p).
      replace (2 * Z.pos p) with (Z.pos p + Z.pos p) by lia.
      rewrite !Z.pow_add_r by lia. ring. }
    destruct (IH mrs (k * 2 ^ Z.pos p) Hm E Hr Hs) as [Hr2 Hs2].
    apply (IH _ k); [apply iter_pos_shr_1_nonneg, Hm| |exact Hr2|exact Hs2].
    rewrite iter_pos_shr_1_div by exact Hm. rewrite E.
    now rewrite Z.div_mul by lia.
  - apply (shr_1_exact mrs Hm); [|exact Hr|exact Hs].
    rewrite Hk. change (2 ^ 1) with 2. rewrite Z.even_mul. cbn.
    now rewrite orb_true_r.
Qed.

Lemma loc_of_shr_record_exact (mrs : shr_record) :
  shr_r mrs = false -> shr_s mrs = false -> loc_of_shr_record mrs = loc_Exact.
Proof. destruct mrs as [m r s]. cbn. now intros -> ->. Qed.

(** [shr_fexp] divides the mantissa by the power of two that brings the
    exponent to the one of the format, and reports an exact location when
    the division of an exact mantissa leaves no remainder. *)
Lemma shr_fexp_spec (M E : Z) (l : location) :
  0 <= M ->
  exists mrs : shr_record,
    shr_fexp prec emax M E l
      = (mrs, Z.max E (fexp prec emax (Zdigits2 M + E))) /\
    shr_m mrs = M / 2 ^ (Z.max E (fexp prec emax (Zdigits2 M + E)) - E) /\
    (forall k : Z,
       l = loc_Exact ->
       M = k * 2 ^ (Z.max E (fexp prec emax (Zdigits2 M + E)) - E) ->
       loc_of_shr_record mrs = loc_Exact).
Proof.
  intros HM. unfold shr_fexp, shr.
  set (F := fexp prec emax (Zdigits2 M + E)).
  destruct (F - E) as [|n|n] eqn:En.
  - exists (shr_record_of_loc M l). replace (Z.max E F) with E by lia.
    split; [reflexivity|]. rewrite shr_m_record_of_loc, Z.sub_diag.
    split; [now rewrite Z.div_1_r|]. intros k -> _. reflexivity.
  - exists (iter_pos shr_1 n (shr_record_of_loc M l)).
    replace (Z.max E F) with (E + Z.pos n) by lia.
    replace (E + Z.pos n - E) with (Z.pos n) by lia.
    split; [reflexivity|]. split.
    + rewrite iter_pos_shr_1_div by (rewrite shr_m_record_of_loc; exact HM).
      now rewrite shr_m_record_of_loc.
    + intros k -> Hk.
      destruct (iter_pos_shr_1_exact n (shr_record_of_loc M loc_Exact) k)
        as [Hr Hs]; try reflexivity; try exact HM; try exact Hk.
      now apply loc_of_shr_record_exact.
  - exists (shr_record_of_loc M l). replace (Z.max E F) with E by lia.
    split; [reflexivity|]. rewrite shr_m_record_of_loc, Z.sub_diag.
    split; [now rewrite Z.div_1_r|]. intros k -> _. reflexivity.
Qed.

Lemma Zdigits2_bounds (M : Z) :
  0 <= M -> M < 2 ^ Zdigits2 M /\ (0 < M -> 2 ^ (Zdigits2 M - 1) <= M).
Proof.
  intros HM. destruct M as [|p|p]; [cbn; lia| |lia].
  cbn [Zdigits2]. pose proof (digits2_pos_bounds p). lia.
Qed.

Lemma Zdigits2_le (M k : Z) : 0 <= M -> 0 <= k -> M < 2 ^ k -> Zdigits2 M <= k.
Proof.
  intros HM Hk H. destruct (Z.eq_dec M 0) as [->|Hn]; [exact Hk|].
  destruct (Zdigits2_bounds M HM) as [_ L]. specialize (L ltac:(lia)).
  destruct (Z.leb_spec (Zdigits2 M) k) as [Hle|Hgt]; [exact Hle|exfalso].
  assert (2 ^ k <= 2 ^ (Zdigits2 M - 1)) by (apply Z.pow_le_mono_r; lia). lia.
Qed.

Lemma Zdigits2_nonneg (M : Z) : 0 <= Zdigits2 M.
Proof. destruct M; cbn; lia. Qed.

Lemma pow2_split (x y : Z) : 0 <= x -> 0 <= y -> 2 ^ (x + y) = 2 ^ x * 2 ^ y.
Proof. intros. now apply Z.pow_add_r. Qed.

(** ** Rounding does not cross an integer

    The mantissa [M] at the exponent [E], with the location [l] of the
    exact value between [M] and [M + 1], is rounded to a float that no
    integer separates from the exact value. *)
Lemma binary_round_aux_between (s : bool) (M E : Z) (l : location) (a b : Z) :
  0 <= M -> E <= 0 -> 0 <= a -> b < 2 ^ 53 ->
  a * 2 ^ (- E) <= M -> M + inexact l <= b * 2 ^ (- E) ->
  signed s (binary_round_aux prec emax s M E l) /\
  mag_between a b (binary_round_aux prec emax s M E l).
Proof.
  intros HM HE Ha Hb HL HU.
  assert (P1 : 0 < 2 ^ (- E)) by (apply Z.pow_pos_nonneg; lia).
  assert (Hl : 0 <= inexact l) by (destruct l; cbn; lia).
  assert (Hb0 : 0 <= b).
  { destruct (Z.leb_spec 0 b) as [H|H]; [exact H|exfalso; nia]. }
  destruct (Zdigits2_bounds M HM) as [BU BL].
  pose proof (Zdigits2_nonneg M) as D0.
  assert (HD : Zdigits2 M <= 53 - E).
  { apply Zdigits2_le; [exact HM|lia|].
    replace (53 - E) with (53 + - E) by lia. rewrite pow2_split by lia. nia. }
  unfold binary_round_aux.
  destruct (shr_fexp_spec M E l HM) as (mrs1 & -> & Hm1 & Hx1).
  set (D := Zdigits2 M) in *.
  set (e1 := Z.max E (fexp prec emax (D + E))) in *.
  assert (He1 : E <= e1 <= 0 /\ -1074 <= e1 /\ D + E - 53 <= e1).
  { unfold e1, fexp, emin, prec, emax. lia. }
  assert (Pn : 0 < 2 ^ (e1 - E)) by (apply Z.pow_pos_nonneg; lia).
  assert (Pe : 0 < 2 ^ (- e1)) by (apply Z.pow_pos_nonneg; lia).
  assert (P1e : 2 ^ (- E) = 2 ^ (- e1) * 2 ^ (e1 - E)).
  { rewrite <- pow2_split by lia. f_equal. lia. }
  set (pn := 2 ^ (e1 - E)) in *. set (pe := 2 ^ (- e1)) in *.
  set (M1 := shr_m mrs1) in *.
  pose proof (Z.div_mod M pn ltac:(lia)) as Edm.
  pose proof (Z.mod_pos_bound M pn Pn) as Bmod.
  rewrite <- Hm1 in Edm.
  assert (HM1 : 0 <= M1 < 2 ^ 53).
  { split; [nia|].
    assert (2 ^ D <= 2 ^ (53 + (e1 - E))) by (apply Z.pow_le_mono_r; lia).
    rewrite pow2_split in H by lia. fold pn in H. nia. }
  set (m2 := round_nearest_even M1 (loc_of_shr_record mrs1)).
  assert (Hm2 : a * pe <= m2 <= b * pe /\ M1 <= m2 <= M1 + 1).
  { assert (La : a * pe <= M1).
    { rewrite P1e in HL.
      destruct (Z.leb_spec (a * pe) M1) as [H|H]; [exact H|exfalso].
      assert (M1 + 1 <= a * pe) by lia. nia. }
    destruct (Z.ltb_spec M1 (b * pe)) as [Hlt|Hge].
    - destruct (round_nearest_even_cases M1 (loc_of_shr_record mrs1)) as [R|R];
        fold m2 in R; lia.
    - (* the exact value is the bound itself *)
      rewrite P1e in HU.
      assert (Ex : M = (b * pe) * pn /\ inexact l = 0) by nia.
      destruct Ex as [Ex Il].
      assert (l = loc_Exact) by (destruct l; [reflexivity|discriminate Il]).
      assert (R : m2 = M1).
      { unfold m2. rewrite (Hx1 (b * pe)); [reflexivity|assumption|exact Ex]. }
      assert (M1 = b * pe) by nia. lia. }
  destruct Hm2 as [[La Ub] Hc].
  assert (Hm2' : 0 <= m2) by lia.
  destruct (shr_fexp_spec m2 e1 loc_Exact Hm2') as (mrs2 & -> & Hm3 & _).
  destruct (Z.ltb_spec m2 (2 ^ 53)) as [Hlt|Hge].
  - assert (D2 : Zdigits2 m2 <= 53) by (apply Zdigits2_le; lia).
    replace (Z.max e1 (fexp prec emax (Zdigits2 m2 + e1))) with e1 in *
      by (unfold fexp, emin, prec, emax; lia).
    rewrite Z.sub_diag, Z.div_1_r in Hm3. rewrite Hm3.
    destruct m2 as [|p|p]; [| |lia].
    + split; [constructor|]. cbn. nia.
    + replace (e1 <=? emax - prec) with true
        by (symmetry; apply Z.leb_le; unfold emax, prec; lia).
      split; [constructor|]. cbn [mag_between]. fold pe. lia.
  - assert (E2 : m2 = 2 ^ 53) by lia.
    assert (D2 : Zdigits2 m2 = 54).
    { rewrite E2. reflexivity. }
    assert (He : e1 < 0).
    { destruct (Z.eq_dec e1 0) as [H0|H0]; [|lia].
      exfalso. unfold pe in Ub. rewrite H0 in Ub. cbn in Ub. lia. }
    rewrite D2 in *.
    replace (Z.max e1 (fexp prec emax (54 + e1))) with (e1 + 1) in *
      by (unfold fexp, emin, prec, emax; lia).
    replace (e1 + 1 - e1) with 1 in Hm3 by lia.
    rewrite E2 in Hm3. change (2 ^ 53 / 2 ^ 1) with (Z.pos (2 ^ 52)) in Hm3.
    rewrite Hm3.
    replace (e1 + 1 <=? emax - prec) with true
      by (symmetry; apply Z.leb_le; unfold emax, prec; lia).
    split; [constructor|]. cbn [mag_between].
    assert (Pe' : pe = 2 * 2 ^ (- (e1 + 1))).
    { unfold pe. replace (- e1) with (1 + - (e1 + 1)) by lia.
      rewrite pow2_split by lia. reflexivity. }
    assert (0 < 2 ^ (- (e1 + 1))) by (apply Z.pow_pos_nonneg; lia).
    rewrite E2 in La, Ub. change (2 ^ 53) with (2 * Z.pos (2 ^ 52)) in La, Ub.
    rewrite Pe' in La, Ub. split; [lia|]. nia.
Qed.

Lemma between_weaken (lo hi lo' hi' : Z) (f : float) :
  between lo hi f -> lo' <= lo -> hi <= hi' -> between lo' hi' f.
Proof.
  destruct f as [s|s| |s m e]; cbn [between]; try tauto; [lia|].
  intros (He & L & U) Hl Hh. split; [exact He|].
  assert (0 < 2 ^ (- e)) by (apply Z.pow_pos_nonneg; lia). nia.
Qed.

Lemma between_of_mag (s : bool) (a b : Z) (f : float) :
  signed s f -> mag_between a b f -> 0 <= b ->
  between (if s then - b else a) (if s then - a else b) f.
Proof.
  intros [ |m e| ]; cbn [mag_between between]; [| |tauto].
  - destruct s; lia.
  - intros (He & L & U) _. split; [exact He|].
    destruct s; cbn [cond_Zopp]; lia.
Qed.

(** A float between two non-negative bounds is zero or positive. *)
Lemma between_nonneg (a b : Z) (f : float) :
  between a b f -> 0 <= a ->
  mag_between a b f /\ 0 <= b /\
  (is_zero f = true \/ exists m e, f = S754_finite false m e).
Proof.
  destruct f as [s|s| |s m e]; cbn [between mag_between]; [|tauto|tauto|].
  - intros H Ha. repeat split; try lia. now left.
  - intros (He & L & U) Ha.
    assert (0 < 2 ^ (- e)) by (apply Z.pow_pos_nonneg; lia).
    destruct s; cbn [cond_Zopp] in *; [exfalso; nia|].
    split; [lia|]. split; [nia|]. right. now exists m, e.
Qed.

(** ** The product *)

Lemma mul_bounds (a b c d x y p q : Z) :
  0 <= a -> 0 <= c -> 0 < p -> 0 < q ->
  a * p <= x <= b * p -> c * q <= y <= d * q ->
  (a * c) * (p * q) <= x * y <= (b * d) * (p * q).
Proof.
  intros Ha Hc Hp Hq [L1 U1] [L2 U2].
  replace (a * c * (p * q)) with ((a * p) * (c * q)) by ring.
  replace (b * d * (p * q)) with ((b * p) * (d * q)) by ring.
  split; apply Z.mul_le_mono_nonneg; nia.
Qed.

Lemma fmul_between (x y : float) (a b c d : Z) :
  between a b x -> between c d y -> 0 <= a -> 0 <= c -> b * d < 2 ^ 53 ->
  between (a * c) (b * d) (fmul x y).
Proof.
  intros Hx Hy Ha Hc Hbd.
  destruct (between_nonneg a b x Hx Ha) as (Mx & Hb & Sx).
  destruct (between_nonneg c d y Hy Hc) as (My & Hd & Sy).
  destruct Sx as [Zx|(mx & ex & ->)]; destruct Sy as [Zy|(my & ey & ->)].
  - destruct x; try discriminate; destruct y; try discriminate.
    cbn in *. nia.
  - destruct x; try discriminate. cbn in *. nia.
  - destruct y; try discriminate. cbn in *. nia.
  - cbn [mag_between] in Mx, My.
    destruct Mx as (Hex & Lx & Ux), My as (Hey & Ly & Uy).
    assert (Px : 0 < 2 ^ (- ex)) by (apply Z.pow_pos_nonneg; lia).
    assert (Py : 0 < 2 ^ (- ey)) by (apply Z.pow_pos_nonneg; lia).
    assert (P : 2 ^ (- (ex + ey)) = 2 ^ (- ex) * 2 ^ (- ey)).
    { rewrite <- pow2_split by lia. f_equal. lia. }
    unfold fmul, SFmul. cbn [xorb].
    pose proof (mul_bounds a b c d _ _ _ _ Ha Hc Px Py (conj Lx Ux) (conj Ly Uy))
      as [L U].
    rewrite <- P, <- Pos2Z.inj_mul in L, U.
    destruct (binary_round_aux_between false (Z.pos (mx * my)) (ex + ey)
                loc_Exact (a * c) (b * d)) as [Sg Mg];
      [lia|lia|nia|exact Hbd|exact L|cbn [inexact]; lia|].
    apply (between_of_mag false _ _ _ Sg Mg). nia.
Qed.

(** ** Sums and differences *)

Lemma pos_iter_xO (m d : positive) :
  Z.pos (Pos.iter xO m d) = Z.pos m * 2 ^ Z.pos d.
Proof.
  induction d as [|d IH] using Pos.peano_ind.
  - cbn [Pos.iter]. rewrite (Pos2Z.inj_xO m). change (2 ^ 1) with 2. ring.
  - rewrite Pos.iter_succ, (Pos2Z.inj_xO (Pos.iter xO m d)), IH, Pos2Z.inj_succ.
    rewrite Z.pow_succ_r by lia. ring.
Qed.

Lemma shl_align_spec (mx : positive) (ex ex' : Z) :
  exists (mz : positive) (ez : Z),
    shl_align mx ex ex' = (mz, ez) /\ ez = Z.min ex ex' /\
    Z.pos mz = Z.pos mx * 2 ^ (ex - ez).
Proof.
  unfold shl_align. destruct (ex' - ex) as [|d|d] eqn:Ed.
  - exists mx, ex. split; [reflexivity|]. split; [lia|].
    rewrite Z.sub_diag. cbn. lia.
  - exists mx, ex. split; [reflexivity|]. split; [lia|].
    rewrite Z.sub_diag. cbn. lia.
  - exists (Pos.iter xO mx d), ex'. split; [reflexivity|]. split; [lia|].
    rewrite pos_iter_xO. f_equal. f_equal. lia.
Qed.

(** The float nearest to the integer [S] scaled by [2 ^ e] stays between
    the integers that enclose [S * 2 ^ e]. *)
Lemma binary_normalize_between (S e lo hi : Z) :
  e <= 0 -> - 2 ^ 53 < lo -> hi < 2 ^ 53 ->
  lo * 2 ^ (- e) <= S <= hi * 2 ^ (- e) ->
  between lo hi (binary_normalize prec emax S e false).
Proof.
  intros He Hlo Hhi [L U].
  assert (P : 0 < 2 ^ (- e)) by (apply Z.pow_pos_nonneg; lia).
  destruct S as [|p|p]; cbn [binary_normalize].
  - cbn [between]. nia.
  - unfold binary_round.
    destruct (shl_align_spec p e (fexp prec emax (Z.pos (digits2_pos p) + e)))
      as (mz & ez & -> & Hez & Hmz).
    assert (Pd : 0 < 2 ^ (e - ez)) by (apply Z.pow_pos_nonneg; lia).
    assert (Pz : 2 ^ (- ez) = 2 ^ (- e) * 2 ^ (e - ez)).
    { rewrite <- pow2_split by lia. f_equal. lia. }
    destruct (binary_round_aux_between false (Z.pos mz) ez loc_Exact
                (Z.max lo 0) hi) as [Sg Mg];
      [lia|lia|lia|exact Hhi| |cbn [inexact]|].
    + rewrite Pz, Hmz. nia.
    + rewrite Pz, Hmz. nia.
    + apply (between_weaken (Z.max lo 0) hi); [|lia|lia].
      apply (between_of_mag false _ _ _ Sg Mg). nia.
  - unfold binary_round.
    destruct (shl_align_spec p e (fexp prec emax (Z.pos (digits2_pos p) + e)))
      as (mz & ez & -> & Hez & Hmz).
    assert (Pd : 0 < 2 ^ (e - ez)) by (apply Z.pow_pos_nonneg; lia).
    assert (Pz : 2 ^ (- ez) = 2 ^ (- e) * 2 ^ (e - ez)).
    { rewrite <- pow2_split by lia. f_equal. lia. }
    destruct (binary_round_aux_between true (Z.pos mz) ez loc_Exact
                (Z.max (- hi) 0) (- lo)) as [Sg Mg];
      [lia|lia|lia|lia| |cbn [inexact]|].
    + rewrite Pz, Hmz. nia.
    + rewrite Pz, Hmz. nia.
    + apply (between_weaken (- - lo) (- Z.max (- hi) 0)); [|lia|lia].
      apply (between_of_mag true _ _ _ Sg Mg). nia.
Qed.

(** The value of a finite float as an integer at a smaller exponent. *)
Lemma aligned_bounds (lo hi : Z) (s : bool) (m : positive) (e ez : Z) :
  between lo hi (S754_finite s m e) -> ez <= e ->
  lo * 2 ^ (- ez) <= cond_Zopp s (Z.pos m * 2 ^ (e - ez)) <= hi * 2 ^ (- ez).
Proof.
  cbn [between]. intros (He & L & U) Hz.
  assert (Pd : 0 < 2 ^ (e - ez)) by (apply Z.pow_pos_nonneg; lia).
  assert (P : 0 < 2 ^ (- e)) by (apply Z.pow_pos_nonneg; lia).
  assert (Pz : 2 ^ (- ez) = 2 ^ (- e) * 2 ^ (e - ez)).
  { rewrite <- pow2_split by lia. f_equal. lia. }
  rewrite Pz. destruct s; cbn [cond_Zopp] in *; nia.
Qed.

Lemma fadd_between (x y : float) (a b c d : Z) :
  between a b x -> between c d y ->
  - 2 ^ 53 < a + c -> b + d < 2 ^ 53 ->
  between (a + c) (b + d) (fadd x y).
Proof.
  intros Hx Hy Hlo Hhi.
  destruct x as [sx|sx| |sx mx ex]; try contradiction;
    destruct y as [sy|sy| |sy my ey]; try contradiction.
  - cbn [between] in *. unfold fadd, SFadd.
    destruct sx, sy; cbn [between]; lia.
  - cbn [between] in Hx. unfold fadd, SFadd.
    apply (between_weaken c d); [exact Hy|lia|lia].
  - cbn [between] in Hy. unfold fadd, SFadd.
    apply (between_weaken a b); [exact Hx|lia|lia].
  - unfold fadd, SFadd. cbv zeta.
    destruct (shl_align_spec mx ex (Z.min ex ey)) as (m1 & e1 & -> & He1 & Hm1).
    destruct (shl_align_spec my ey (Z.min ex ey)) as (m2 & e2 & -> & He2 & Hm2).
    cbn [fst].
    replace e1 with (Z.min ex ey) in Hm1 by lia.
    replace e2 with (Z.min ex ey) in Hm2 by lia.
    pose proof (aligned_bounds a b sx mx ex (Z.min ex ey) Hx ltac:(lia)) as Bx.
    pose proof (aligned_bounds c d sy my ey (Z.min ex ey) Hy ltac:(lia)) as By.
    rewrite <- Hm1 in Bx. rewrite <- Hm2 in By.
    destruct Hx as (Hex & _).
    apply binary_normalize_between; [lia|exact Hlo|exact Hhi|lia].
Qed.

Lemma fsub_between (x y : float) (a b c d : Z) :
  between a b x -> between c d y ->
  - 2 ^ 53 < a - d -> b - c < 2 ^ 53 ->
  between (a - d) (b - c) (fsub x y).
Proof.
  intros Hx Hy Hlo Hhi.
  destruct x as [sx|sx| |sx mx ex]; try contradiction;
    destruct y as [sy|sy| |sy my ey]; try contradiction.
  - cbn [between] in *. unfold fsub, SFsub.
    destruct sx, sy; cbn [between]; lia.
  - cbn [between] in Hx. unfold fsub, SFsub.
    cbn [between] in *. destruct Hy as (He & L & U). split; [exact He|].
    assert (P : 0 < 2 ^ (- ey)) by (apply Z.pow_pos_nonneg; lia).
    destruct sy; cbn [negb cond_Zopp] in *; nia.
  - cbn [between] in Hy. unfold fsub, SFsub.
    apply (between_weaken a b); [exact Hx|lia|lia].
  - unfold fsub, SFsub. cbv zeta.
    destruct (shl_align_spec mx ex (Z.min ex ey)) as (m1 & e1 & -> & He1 & Hm1).
    destruct (shl_align_spec my ey (Z.min ex ey)) as (m2 & e2 & -> & He2 & Hm2).
    cbn [fst].
    replace e1 with (Z.min ex ey) in Hm1 by lia.
    replace e2 with (Z.min ex ey) in Hm2 by lia.
    pose proof (aligned_bounds a b sx mx ex (Z.min ex ey) Hx ltac:(lia)) as Bx.
    pose proof (aligned_bounds c d sy my ey (Z.min ex ey) Hy ltac:(lia)) as By.
    rewrite <- Hm1 in Bx. rewrite <- Hm2 in By.
    destruct Hx as (Hex & _).
    apply binary_normalize_between; [lia|exact Hlo|exact Hhi|lia].
Qed.

(** The conversion of an integer below 2 ** 53 is exact. *)
Lemma float_of_Z_between (k : Z) :
  - 2 ^ 53 < k < 2 ^ 53 -> between k k (float_of_Z k).
Proof.
  intros Hk. unfold float_of_Z.
  apply binary_normalize_between; [lia|lia|lia|]. cbn. lia.
Qed.

(** ** Quotients *)

Lemma cdiv_spec (b c : Z) : 0 < c -> b <= cdiv b c * c < b + c.
Proof.
  intros Hc. unfold cdiv.
  pose proof (Z.div_mod (- b) c ltac:(lia)).
  pose proof (Z.mod_pos_bound (- b) c Hc). nia.
Qed.

Lemma new_location_inexact (nb k : Z) :
  inexact (new_location nb k) = if k =? 0 then 0 else 1.
Proof.
  unfold new_location, new_location_even, new_location_odd.
  destruct (Z.even nb), (k =? 0); reflexivity.
Qed.

Lemma fdiv_mag (sx sy : bool) (mx my : positive) (ex ey a b c d : Z) :
  mag_between a b (S754_finite sx mx ex) ->
  mag_between c d (S754_finite sy my ey) ->
  0 <= a -> 0 < c -> b < 2 ^ 53 ->
  signed (xorb sx sy) (fdiv (S754_finite sx mx ex) (S754_finite sy my ey)) /\
  mag_between (a / d) (cdiv b c)
    (fdiv (S754_finite sx mx ex) (S754_finite sy my ey)).
Proof.
  cbn [mag_between]. intros (Hex & Lx & Ux) (Hey & Ly & Uy) Ha Hc Hb.
  assert (Px : 0 < 2 ^ (- ex)) by (apply Z.pow_pos_nonneg; lia).
  assert (Py : 0 < 2 ^ (- ey)) by (apply Z.pow_pos_nonneg; lia).
  assert (Hd : c <= d) by nia.
  assert (Hb0 : 0 < b) by nia.
  pose proof (cdiv_spec b c Hc) as Hcd.
  assert (Hhi : 0 < cdiv b c <= b) by nia.
  unfold fdiv, SFdiv, SFdiv_core_binary. cbv zeta.
  destruct (Zdigits2_bounds (Z.pos mx) ltac:(lia)) as [U1 _].
  destruct (Zdigits2_bounds (Z.pos my) ltac:(lia)) as [U2 _].
  pose proof (Zdigits2_nonneg (Z.pos mx)) as N1.
  pose proof (Zdigits2_nonneg (Z.pos my)) as N2.
  set (d1 := Zdigits2 (Z.pos mx)) in *. set (d2 := Zdigits2 (Z.pos my)) in *.
  assert (D1 : d1 <= 53 - ex).
  { apply Zdigits2_le; [lia|lia|].
    replace (53 - ex) with (53 + - ex) by lia. rewrite pow2_split by lia. nia. }
  assert (D2 : - ey < d2).
  { apply (Z.pow_lt_mono_r_iff 2); [lia|lia|]. nia. }
  set (e' := Z.min (fexp prec emax (d1 + ex - (d2 + ey))) (ex - ey)).
  assert (He' : e' <= 0 /\ e' <= ex - ey).
  { unfold e', fexp, emin, prec, emax. lia. }
  set (s := ex - ey - e').
  assert (Hs : 0 <= s) by (unfold s; lia).
  assert (Ps : 0 < 2 ^ s) by (apply Z.pow_pos_nonneg; lia).
  assert (P : 0 < 2 ^ (- e')) by (apply Z.pow_pos_nonneg; lia).
  assert (PP : 2 ^ (- ex) * 2 ^ s = 2 ^ (- ey) * 2 ^ (- e')).
  { rewrite <- !pow2_split by lia. f_equal. unfold s. lia. }
  set (m' := match s with
             | 0 => Z.pos mx
             | Z.pos _ => Z.shiftl (Z.pos mx) s
             | Z.neg _ => 0
             end).
  assert (Hm' : m' = Z.pos mx * 2 ^ s).
  { unfold m'. destruct s as [|p|p] eqn:Es; [cbn; lia| |lia].
    now rewrite Z.shiftl_mul_pow2 by lia. }
  pose proof (Z_div_mod m' (Z.pos my) eq_refl) as Hqr.
  destruct (Z.div_eucl m' (Z.pos my)) as [q r]. destruct Hqr as [Hq Hr].
  assert (Hq0 : 0 <= q) by nia.
  assert (Lq : a / d * 2 ^ (- e') <= q).
  { pose proof (Z.mul_div_le a d ltac:(lia)) as Had.
    assert (0 <= a / d) by (apply Z.div_pos; lia).
    set (lo := a / d) in *.
    assert (H1 : (lo * 2 ^ (- e')) * Z.pos my <= (lo * 2 ^ (- e')) * (d * 2 ^ (- ey))).
    { apply Z.mul_le_mono_nonneg_l; nia. }
    assert (H2 : (lo * 2 ^ (- e')) * (d * 2 ^ (- ey))
                 = (d * lo) * (2 ^ (- ex) * 2 ^ s)) by (rewrite PP; ring).
    assert (H3 : (d * lo) * (2 ^ (- ex) * 2 ^ s) <= a * (2 ^ (- ex) * 2 ^ s)).
    { apply Z.mul_le_mono_nonneg_r; nia. }
    assert (H4 : a * (2 ^ (- ex) * 2 ^ s) <= m').
    { rewrite Hm', Z.mul_assoc. apply Z.mul_le_mono_nonneg_r; lia. }
    destruct (Z.leb_spec (lo * 2 ^ (- e')) q) as [G|G]; [exact G|exfalso].
    assert ((q + 1) * Z.pos my <= lo * 2 ^ (- e') * Z.pos my)
      by (apply Z.mul_le_mono_nonneg_r; lia).
    lia. }
  assert (Uq : q + inexact (new_location (Z.pos my) r) <= cdiv b c * 2 ^ (- e')).
  { rewrite new_location_inexact. set (hi := cdiv b c) in *.
    assert (H1 : m' <= b * (2 ^ (- ex) * 2 ^ s)).
    { rewrite Hm', Z.mul_assoc. apply Z.mul_le_mono_nonneg_r; lia. }
    assert (H2 : b * (2 ^ (- ex) * 2 ^ s) <= (hi * c) * (2 ^ (- ey) * 2 ^ (- e'))).
    { rewrite PP. apply Z.mul_le_mono_nonneg_r; nia. }
    assert (H3 : (hi * c) * (2 ^ (- ey) * 2 ^ (- e'))
                 = (hi * 2 ^ (- e')) * (c * 2 ^ (- ey))) by ring.
    assert (H4 : (hi * 2 ^ (- e')) * (c * 2 ^ (- ey)) <= (hi * 2 ^ (- e')) * Z.pos my).
    { apply Z.mul_le_mono_nonneg_l; nia. }
    assert (H5 : Z.pos my * q + r <= (hi * 2 ^ (- e')) * Z.pos my) by lia.
    destruct (Z.eqb_spec r 0) as [R0|R0].
    - destruct (Z.leb_spec (q + 0) (hi * 2 ^ (- e'))) as [G|G]; [exact G|exfalso].
      assert ((hi * 2 ^ (- e') + 1) * Z.pos my <= q * Z.pos my)
        by (apply Z.mul_le_mono_nonneg_r; lia).
      lia.
    - destruct (Z.leb_spec (q + 1) (hi * 2 ^ (- e'))) as [G|G]; [exact G|exfalso].
      assert (hi * 2 ^ (- e') * Z.pos my <= q * Z.pos my)
        by (apply Z.mul_le_mono_nonneg_r; lia).
      lia. }
  apply binary_round_aux_between; try assumption; try lia.
  apply Z.div_pos; lia.
Qed.

(** The quotient by a positive integer that is a float. *)
Lemma fdiv_between (x y : float) (a b k : Z) :
  between a b x -> between k k y -> 0 < k ->
  - 2 ^ 53 < a -> b < 2 ^ 53 ->
  between (a / k) (cdiv b k) (fdiv x y).
Proof.
  intros Hx Hy Hk Hlo Hhi.
  destruct (between_nonneg k k y Hy ltac:(lia)) as (My & _ & Sy).
  destruct Sy as [Zy|(my & ey & ->)].
  { destruct y; try discriminate. cbn in Hy. lia. }
  pose proof (cdiv_spec b k Hk) as Cb.
  pose proof (Z.mul_div_le a k Hk) as Fa.
  pose proof (Z.mod_pos_bound a k Hk) as Ma.
  pose proof (Z.div_mod a k ltac:(lia)) as Da.
  destruct x as [sx|sx| |sx mx ex]; try contradiction.
  - cbn [between] in Hx. unfold fdiv, SFdiv. cbn [between]. nia.
  - assert (Px : 0 < 2 ^ (- ex)).
    { destruct Hx as (He & _). apply Z.pow_pos_nonneg; lia. }
    destruct sx.
    + (* a negative dividend *)
      assert (Mx : mag_between (Z.max (- b) 0) (- a) (S754_finite true mx ex)).
      { cbn [between mag_between cond_Zopp] in *. destruct Hx as (He & L & U).
        split; [exact He|]. nia. }
      destruct (fdiv_mag true false mx my ex ey _ _ _ _ Mx My) as [Sg Mg];
        [lia|exact Hk|lia|].
      pose proof (cdiv_spec (- a) k Hk) as Ca.
      assert (0 <= Z.max (- b) 0 / k) by (apply Z.div_pos; lia).
      pose proof (Z.mul_div_le (Z.max (- b) 0) k Hk) as Fb.
      pose proof (Z.mod_pos_bound (Z.max (- b) 0) k Hk) as Mb.
      pose proof (Z.div_mod (Z.max (- b) 0) k ltac:(lia)) as Db.
      apply (between_weaken (- cdiv (- a) k) (- (Z.max (- b) 0 / k))).
      * apply (between_of_mag true _ _ _ Sg Mg).
        cbn [mag_between] in Mx. nia.
      * nia.
      * nia.
    + assert (Mx : mag_between (Z.max a 0) b (S754_finite false mx ex)).
      { cbn [between mag_between cond_Zopp] in *. destruct Hx as (He & L & U).
        split; [exact He|]. nia. }
      destruct (fdiv_mag false false mx my ex ey _ _ _ _ Mx My) as [Sg Mg];
        [lia|exact Hk|lia|].
      pose proof (Z.mul_div_le (Z.max a 0) k Hk) as Fb.
      pose proof (Z.mod_pos_bound (Z.max a 0) k Hk) as Mb.
      pose proof (Z.div_mod (Z.max a 0) k ltac:(lia)) as Db.
      apply (between_weaken (Z.max a 0 / k) (cdiv b k)).
      * apply (between_of_mag false _ _ _ Sg Mg).
        cbn [mag_between] in Mx. nia.
      * nia.
      * lia.
Qed.

(** ** Rounding to an integer *)

Lemma div_nearest_even_between (m p a b : Z) :
  0 < p -> a * p <= m <= b * p -> a <= div_nearest_even m p <= b.
Proof.
  intros Hp [L U]. unfold div_nearest_even. cbv zeta.
  pose proof (Z.div_mod m p ltac:(lia)) as E.
  pose proof (Z.mod_pos_bound m p Hp) as B.
  assert (La : a <= m / p) by (apply Z.div_le_lower_bound; lia).
  assert (Ub : m / p <= b) by (apply Z.div_le_upper_bound; lia).
  destruct (Z.eq_dec (m / p) b) as [Eb|Nb].
  - assert (R : m mod p = 0) by nia. rewrite R.
    replace (2 * 0 ?= p) with Lt by (symmetry; apply Z.compare_lt_iff; lia).
    lia.
  - destruct (2 * (m mod p) ?= p); [destruct (Z.even (m / p))| |]; lia.
Qed.

Lemma float_round_between (f : float) (a b : Z) :
  between a b f -> exists z : Z, float_round f = Ok z /\ a <= z <= b.
Proof.
  destruct f as [s|s| |s m e]; cbn [between]; try contradiction.
  - intros H. exists 0. split; [reflexivity|exact H].
  - intros (He & L & U). unfold float_round.
    destruct (Z.leb_spec 0 e) as [H0|H0].
    + eexists. split; [reflexivity|].
      replace e with 0 in * by lia. cbn in L, U.
      change (2 ^ 0) with 1. destruct s; cbn [cond_Zopp] in *; lia.
    + eexists. split; [reflexivity|].
      assert (P : 0 < 2 ^ (- e)) by (apply Z.pow_pos_nonneg; lia).
      destruct s; cbn [cond_Zopp] in *.
      * pose proof (div_nearest_even_between (Z.pos m) (2 ^ (- e)) (- b) (- a) P).
        lia.
      * pose proof (div_nearest_even_between (Z.pos m) (2 ^ (- e)) a b P).
        lia.
Qed.

Lemma round_between (n : num) (a b : Z) :
  nbetween a b n -> exists z : Z, round n = Ok z /\ a <= z <= b.
Proof.
  destruct n as [z|f]; cbn [nbetween round].
  - intros H. now exists z.
  - apply float_round_between.
Qed.

(** ** From the comparisons of Python to bounds *)

Lemma Qle_unscaled_l (z m e : Z) :
  0 <= e -> (inject_Z z <= inject_Z m * 2 ^ e)%Q -> z <= m * 2 ^ e.
Proof.
  intros He H. change 2%Q with (inject_Z 2) in H.
  rewrite <- Zpower_Qpower, <- inject_Z_mult in H by exact He.
  now rewrite <- Zle_Qle in H.
Qed.

Lemma le_int_float (k : Z) (s : bool) (m : positive) (e : Z) :
  e <= 0 -> le (Int k) (Float (S754_finite s m e)) = true ->
  k * 2 ^ (- e) <= cond_Zopp s (Z.pos m).
Proof.
  intros He H.
  pose proof (le_value (Int k) (Float (S754_finite s m e)) _ _ eq_refl eq_refl H) as Q.
  destruct (Z.eq_dec e 0) as [->|Hn].
  - apply Qle_unscaled_l in Q; [|lia]. cbn in *. lia.
  - apply Qle_scaled_l; [lia|exact Q].
Qed.

Lemma le_float_int (k : Z) (s : bool) (m : positive) (e : Z) :
  e <= 0 -> le (Float (S754_finite s m e)) (Int k) = true ->
  cond_Zopp s (Z.pos m) <= k * 2 ^ (- e).
Proof.
  intros He H.
  pose proof (le_value (Float (S754_finite s m e)) (Int k) _ _ eq_refl eq_refl H) as Q.
  destruct (Z.eq_dec e 0) as [->|Hn].
  - apply Qle_unscaled_r in Q; [|lia]. cbn in *. lia.
  - apply Qle_scaled_r; [lia|exact Q].
Qed.

(** A well-formed float that Python finds between two integers below
    2 ** 53 has an exponent of at most 0. *)
Lemma between_of_range (f : float) (a b : Z) :
  valid f = true ->
  le (Int a) (Float f) = true -> le (Float f) (Int b) = true ->
  - 2 ^ 53 < a -> b < 2 ^ 53 ->
  between a b f.
Proof.
  intros Hv La Ub Ha Hb.
  destruct f as [s|[]| |s m e]; try discriminate.
  - cbn [between].
    pose proof (le_value (Int a) (Float (S754_zero s)) _ _ eq_refl eq_refl La) as Q1.
    pose proof (le_value (Float (S754_zero s)) (Int b) _ _ eq_refl eq_refl Ub) as Q2.
    change 0%Q with (inject_Z 0) in Q1, Q2.
    rewrite <- Zle_Qle in Q1, Q2. lia.
  - assert (He : e <= 0).
    { destruct (Z.leb_spec e 0) as [H|H]; [exact H|exfalso].
      unfold valid, valid_binary, bounded, canonical_mantissa, fexp, emin, prec, emax in Hv.
      apply andb_true_iff in Hv as [Hc _]. apply Z.eqb_eq in Hc.
      pose proof (digits2_pos_bounds m) as [B1 _].
      assert (D : Z.pos (digits2_pos m) = 53) by lia.
      rewrite D in B1. change (2 ^ (53 - 1)) with (2 ^ 52) in B1.
      pose proof (le_value (Int a) (Float (S754_finite s m e)) _ _ eq_refl eq_refl La) as Q1.
      pose proof (le_value (Float (S754_finite s m e)) (Int b) _ _ eq_refl eq_refl Ub) as Q2.
      apply Qle_unscaled_l in Q1; [|lia]. apply Qle_unscaled_r in Q2; [|lia].
      assert (2 ^ 1 <= 2 ^ e) by (apply Z.pow_le_mono_r; lia).
      change (2 ^ 1) with 2 in *. change (2 ^ 53) with (2 ^ 52 * 2) in *.
      destruct s; cbn [cond_Zopp] in *; nia. }
    cbn [between]. split; [exact He|]. split.
    + now apply le_int_float.
    + now apply le_float_int.
Qed.

(** What [max(k, x)] keeps of the bounds of [x]. *)
Lemma lt_between_lower (k lo hi : Z) (f : float) :
  between lo hi f -> lt (Int k) (Float f) = true -> between (Z.max lo k) hi f.
Proof.
  intros Hb Hlt. apply lt_le in Hlt.
  destruct f as [s|s| |s m e]; try contradiction.
  - cbn [between] in *.
    pose proof (le_value (Int k) (Float (S754_zero s)) _ _ eq_refl eq_refl Hlt) as Q1.
    change 0%Q with (inject_Z 0) in Q1. rewrite <- Zle_Qle in Q1. lia.
  - cbn [between] in *. destruct Hb as (He & L & U). split; [exact He|].
    pose proof (le_int_float k s m e He Hlt).
    assert (P : 0 < 2 ^ (- e)) by (apply Z.pow_pos_nonneg; lia).
    split; [|exact U]. destruct (Z.max_spec lo k) as [[_ ->]|[_ ->]]; lia.
Qed.

Lemma not_lt_le (a b : num) (p q : Q) :
  value a = Xfinite p -> value b = Xfinite q ->
  lt a b = false -> le b a = true.
Proof.
  unfold lt, le, compare. intros -> ->.
  rewrite (xcompare_antisym (Xfinite p) (Xfinite q)). cbn.
  destruct (p ?= q)%Q; easy.
Qed.

Lemma not_lt_between_upper (k lo hi : Z) (n : num) :
  nbetween lo hi n -> lt (Int k) n = false -> lo <= k.
Proof.
  intros Hn Hlt. destruct n as [z|[s|s| |s m e]]; cbn [nbetween between] in Hn;
    try contradiction.
  - pose proof (not_lt_le (Int k) (Int z) _ _ eq_refl eq_refl Hlt) as H.
    pose proof (le_value (Int z) (Int k) _ _ eq_refl eq_refl H) as Q1.
    rewrite <- Zle_Qle in Q1. lia.
  - pose proof (not_lt_le (Int k) (Float (S754_zero s)) _ _ eq_refl eq_refl Hlt) as H.
    pose proof (le_value (Float (S754_zero s)) (Int k) _ _ eq_refl eq_refl H) as Q1.
    change 0%Q with (inject_Z 0) in Q1. rewrite <- Zle_Qle in Q1. lia.
  - destruct Hn as (He & L & U).
    pose proof (not_lt_le (Int k) (Float (S754_finite s m e)) _ _ eq_refl eq_refl Hlt)
      as H.
    pose proof (le_float_int k s m e He H).
    assert (P : 0 < 2 ^ (- e)) by (apply Z.pow_pos_nonneg; lia). nia.
Qed.

Lemma max_between (k lo hi : Z) (n : num) :
  nbetween lo hi n -> nbetween (Z.max lo k) (Z.max hi k) (max (Int k) n).
Proof.
  intros Hn. unfold max, gt. destruct (lt (Int k) n) eqn:E.
  - destruct n as [z|f]; cbn [nbetween] in *.
    + unfold lt, compare in E. cbn [value xcompare] in E.
      destruct (inject_Z k ?= inject_Z z)%Q eqn:C; try discriminate E.
      apply Qlt_alt in C. rewrite <- Zlt_Qlt in C. lia.
    + apply (between_weaken (Z.max lo k) hi); [|lia|lia].
      now apply lt_between_lower.
  - cbn [nbetween]. pose proof (not_lt_between_upper k lo hi n Hn E). lia.
Qed.

(** ** The operators on numbers *)

Lemma to_float_between (n : num) (lo hi : Z) :
  nbetween lo hi n -> - 2 ^ 53 < lo -> hi < 2 ^ 53 ->
  exists f : float, to_float n = Ok f /\ between lo hi f.
Proof.
  destruct n as [z|f]; cbn [nbetween to_float]; intros H Hlo Hhi.
  - pose proof (float_of_Z_between z ltac:(lia)) as B.
    exists (float_of_Z z). unfold int_to_float. cbv zeta.
    destruct (float_of_Z z); try contradiction; cbn [is_infinity];
      (split; [reflexivity|]); apply (between_weaken z z); auto; lia.
  - now exists f.
Qed.

Lemma mul_between (x y : num) (a b c d : Z) :
  nbetween a b x -> nbetween c d y -> 0 <= a -> 0 <= c ->
  b < 2 ^ 53 -> d < 2 ^ 53 -> b * d < 2 ^ 53 ->
  exists r : num, mul x y = Ok r /\ nbetween (a * c) (b * d) r.
Proof.
  intros Hx Hy Ha Hc Hb Hd Hbd.
  destruct (to_float_between x a b Hx ltac:(lia) Hb) as (fx & Ex & Bx).
  destruct (to_float_between y c d Hy ltac:(lia) Hd) as (fy & Ey & By).
  pose proof (fmul_between fx fy a b c d Bx By Ha Hc Hbd) as B.
  unfold mul, arith.
  destruct x as [zx|gx]; [destruct y as [zy|gy]|].
  - exists (Int (zx * zy)). split; [reflexivity|]. cbn [nbetween] in *. nia.
  - rewrite Ex, Ey. cbn [bind]. eexists. split; [reflexivity|exact B].
  - rewrite Ex, Ey. cbn [bind]. eexists. split; [reflexivity|exact B].
Qed.

Lemma add_between (x y : num) (a b c d : Z) :
  nbetween a b x -> nbetween c d y ->
  - 2 ^ 53 < a -> b < 2 ^ 53 -> - 2 ^ 53 < c -> d < 2 ^ 53 ->
  - 2 ^ 53 < a + c -> b + d < 2 ^ 53 ->
  exists r : num, add x y = Ok r /\ nbetween (a + c) (b + d) r.
Proof.
  intros Hx Hy Ha Hb Hc Hd Hlo Hhi.
  destruct (to_float_between x a b Hx Ha Hb) as (fx & Ex & Bx).
  destruct (to_float_between y c d Hy Hc Hd) as (fy & Ey & By).
  pose proof (fadd_between fx fy a b c d Bx By Hlo Hhi) as B.
  unfold add, arith.
  destruct x as [zx|gx]; [destruct y as [zy|gy]|].
  - exists (Int (zx + zy)). split; [reflexivity|]. cbn [nbetween] in *. lia.
  - rewrite Ex, Ey. cbn [bind]. eexists. split; [reflexivity|exact B].
  - rewrite Ex, Ey. cbn [bind]. eexists. split; [reflexivity|exact B].
Qed.

Lemma sub_between (x y : num) (a b c d : Z) :
  nbetween a b x -> nbetween c d y ->
  - 2 ^ 53 < a -> b < 2 ^ 53 -> - 2 ^ 53 < c -> d < 2 ^ 53 ->
  - 2 ^ 53 < a - d -> b - c < 2 ^ 53 ->
  exists r : num, sub x y = Ok r /\ nbetween (a - d) (b - c) r.
Proof.
  intros Hx Hy Ha Hb Hc Hd Hlo Hhi.
  destruct (to_float_between x a b Hx Ha Hb) as (fx & Ex & Bx).
  destruct (to_float_between y c d Hy Hc Hd) as (fy & Ey & By).
  pose proof (fsub_between fx fy a b c d Bx By Hlo Hhi) as B.
  unfold sub, arith.
  destruct x as [zx|gx]; [destruct y as [zy|gy]|].
  - exists (Int (zx - zy)). split; [reflexivity|]. cbn [nbetween] in *. lia.
  - rewrite Ex, Ey. cbn [bind]. eexists. split; [reflexivity|exact B].
  - rewrite Ex, Ey. cbn [bind]. eexists. split; [reflexivity|exact B].
Qed.

(** A float divided by a positive integer constant. *)
Lemma truediv_between (x : float) (k a b : Z) :
  between a b x -> 0 < k < 2 ^ 53 -> - 2 ^ 53 < a -> b < 2 ^ 53 ->
  exists q : float,
    truediv (Float x) (Int k) = Ok (Float q) /\ between (a / k) (cdiv b k) q.
Proof.
  intros Hx Hk Ha Hb.
  destruct (to_float_between (Int k) k k) as (fk & Ek & Bk);
    [cbn; lia|lia|lia|].
  pose proof (fdiv_between x fk a b k Hx Bk ltac:(lia) Ha Hb) as B.
  unfold truediv. cbn [to_float bind] in *. rewrite Ek. cbn [bind].
  destruct fk as [s|s| |s m e] eqn:Ef; try contradiction.
  - cbn in Bk. lia.
  - cbn [is_zero]. eexists. split; [reflexivity|exact B].
Qed.

Lemma arith_float_left (iop : Z -> Z -> Z) (fop : float -> float -> float)
    (x : float) (y : num) (lo hi : Z) :
  nbetween lo hi y -> - 2 ^ 53 < lo -> hi < 2 ^ 53 ->
  exists fy : float,
    between lo hi fy /\ arith iop fop (Float x) y = Ok (Float (fop x fy)).
Proof.
  intros Hy Hlo Hhi.
  destruct (to_float_between y lo hi Hy Hlo Hhi) as (fy & Ey & By).
  exists fy. split; [exact By|]. unfold arith. cbn [to_float bind].
  rewrite Ey. reflexivity.
Qed.

Lemma arith_float_right (iop : Z -> Z -> Z) (fop : float -> float -> float)
    (x : num) (y : float) (lo hi : Z) :
  nbetween lo hi x -> - 2 ^ 53 < lo -> hi < 2 ^ 53 ->
  exists fx : float,
    between lo hi fx /\ arith iop fop x (Float y) = Ok (Float (fop fx y)).
Proof.
  intros Hx Hlo Hhi.
  destruct (to_float_between x lo hi Hx Hlo Hhi) as (fx & Ex & Bx).
  exists fx. split; [exact Bx|]. unfold arith.
  destruct x as [z|g]; cbn [to_float bind] in *.
  - rewrite Ex. reflexivity.
  - injection Ex as ->. reflexivity.
Qed.

(** ** The values of the form *)

Lemma in_range_between (u : UserInput) :
  valid (weight u) = true -> valid (height u) = true -> in_range u = true ->
  between 20 300 (weight u) /\ between 80 250 (height u) /\ 10 <= age u <= 100.
Proof.
  intros Vw Vh H. unfold in_range in H.
  apply andb_true_iff in H as [H A2]. apply andb_true_iff in H as [H A1].
  apply andb_true_iff in H as [H H2]. apply andb_true_iff in H as [H H1].
  apply andb_true_iff in H as [W1 W2].
  apply Z.leb_le in A1, A2.
  split; [|split; [|lia]]; apply between_of_range; auto; lia.
Qed.

(** ** Bounds of the energy needs *)

Lemma mifflin_between (w h : float) (a : Z) :
  between 20 300 w -> between 80 250 h -> 10 <= a <= 100 ->
  exists x : float,
    between 680 4750 x /\
    fadd (fmul (float_of_Z 10) w) (fmul f6_25 h) = x /\
    between 50 500 (float_of_Z (5 * a)).
Proof.
  intros Hw Hh Ha.
  assert (B10 : between 10 10 (float_of_Z 10)) by between_const.
  assert (B6 : between 6 7 f6_25) by between_const.
  pose proof (fmul_between _ _ _ _ _ _ B10 Hw ltac:(lia) ltac:(lia) ltac:(lia)) as B1.
  pose proof (fmul_between _ _ _ _ _ _ B6 Hh ltac:(lia) ltac:(lia) ltac:(lia)) as B2.
  pose proof (fadd_between _ _ _ _ _ _ B1 B2 ltac:(lia) ltac:(lia)) as B3.
  eexists. split; [|split; [reflexivity|]].
  - apply (between_weaken _ _ _ _ _ B3); lia.
  - apply (between_weaken (5 * a) (5 * a)); [|lia|lia].
    apply float_of_Z_between. lia.
Qed.

Lemma bmr_between (u : UserInput) :
  between 20 300 (weight u) -> between 80 250 (height u) ->
  10 <= age u <= 100 ->
  exists b : float,
    bmr_mifflin (Float (weight u)) (Float (height u)) (Int (age u))
      (formula_gender (gender u)) = flt b /\
    between 19 4705 b.
Proof.
  intros Hw Hh Ha. rewrite bmr_mifflin_formula_gender.
  destruct (mifflin_between _ _ _ Hw Hh Ha) as (x & Bx & Ex & B5).
  pose proof (fsub_between _ _ _ _ _ _ Bx B5 ltac:(lia) ltac:(lia)) as B4.
  destruct (String.eqb (gender u) "male").
  - rewrite (mifflin_male_float _ _ _ Ha), Ex. eexists. split; [reflexivity|].
    assert (C5 : between 5 5 (float_of_Z 5)) by between_const.
    pose proof (fadd_between _ _ _ _ _ _ B4 C5 ltac:(lia) ltac:(lia)) as B.
    apply (between_weaken _ _ _ _ _ B); lia.
  - rewrite (mifflin_female_float _ _ _ Ha), Ex. eexists. split; [reflexivity|].
    assert (C5 : between 161 161 (float_of_Z 161)) by between_const.
    pose proof (fsub_between _ _ _ _ _ _ B4 C5 ltac:(lia) ltac:(lia)) as B.
    apply (between_weaken _ _ _ _ _ B); lia.
Qed.

Lemma activity_multiplier_between (level : string) :
  exists m : float, activity_multiplier level = Float m /\ between 1 2 m.
Proof.
  unfold activity_multiplier. cbn [get].
  repeat match goal with
         | |- context [if String.eqb ?k level then _ else _] =>
             destruct (String.eqb k level);
             [eexists; split; [reflexivity|between_const]|]
         end.
  eexists; split; [reflexivity|between_const].
Qed.

Lemma calorie_target_between (t : float) (g : string) :
  between 19 9410 t ->
  exists c : num, calorie_target (Float t) g = Ok c /\ nbetween 19 9710 c.
Proof.
  intros Ht. unfold calorie_target, lift2. cbn [bind].
  destruct (String.eqb g "lose"); [|destruct (String.eqb g "gain")].
  - destruct (arith_float_left Z.sub fsub t (Int 500) 500 500)
      as (f & Bf & E); [cbn; lia|lia|lia|].
    fold sub in E. rewrite E. cbn [bind]. eexists. split; [reflexivity|].
    pose proof (fsub_between _ _ _ _ _ _ Ht Bf ltac:(lia) ltac:(lia)) as B.
    pose proof (max_between 1200 _ _ (Float (fsub t f)) B) as M.
    destruct (max (Int 1200) (Float (fsub t f))) as [z|x]; cbn [nbetween] in *.
    + lia.
    + apply (between_weaken _ _ _ _ _ M); lia.
  - destruct (arith_float_left Z.add fadd t (Int 300) 300 300)
      as (f & Bf & E); [cbn; lia|lia|lia|].
    fold add in E. rewrite E. eexists. split; [reflexivity|].
    pose proof (fadd_between _ _ _ _ _ _ Ht Bf ltac:(lia) ltac:(lia)) as B.
    cbn [nbetween]. apply (between_weaken _ _ _ _ _ B); lia.
  - eexists. split; [reflexivity|]. cbn [nbetween].
    apply (between_weaken _ _ _ _ _ Ht); lia.
Qed.

Lemma energy_needs_between (u : UserInput) :
  between 20 300 (weight u) -> between 80 250 (height u) ->
  10 <= age u <= 100 ->
  exists (b t : float) (c : num),
    energy_needs u = Ok (Float b, Float t, c) /\
    between 19 4705 b /\ between 19 9410 t /\ nbetween 19 9710 c.
Proof.
  intros Hw Hh Ha. unfold energy_needs.
  destruct (bmr_between u Hw Hh Ha) as (b & -> & Bb).
  destruct (activity_multiplier_between (exercise_level u)) as (m & -> & Bm).
  cbn [bind]. unfold lift2, mul, arith. cbn [bind to_float].
  pose proof (fmul_between _ _ _ _ _ _ Bb Bm ltac:(lia) ltac:(lia) ltac:(lia)) as Bt.
  assert (Bt' : between 19 9410 (fmul b m))
    by (apply (between_weaken _ _ _ _ _ Bt); lia).
  destruct (calorie_target_between (fmul b m) (goal u) Bt') as (c & -> & Bc).
  cbn [bind]. exists b, (fmul b m), c. auto.
Qed.

(** ** Bounds of the macro split *)

Lemma protein_g_per_kg_between (g : string) :
  exists r : float, protein_g_per_kg g = Float r /\ between 1 2 r.
Proof.
  unfold protein_g_per_kg.
  destruct (String.eqb g "lose"); [|destruct (String.eqb g "gain")];
    eexists; (split; [reflexivity|between_const]).
Qed.

Lemma macro_split_between (c : num) (r w : float) :
  nbetween 19 9710 c -> between 1 2 r -> between 20 300 w ->
  exists m : macros,
    macro_split c (Float r) (Float w) = Ok m /\
    20 <= protein_g m <= 600 /\ 0 <= fat_g m <= 1079 /\
    0 <= carb_g m <= 2408.
Proof.
  intros Hc Hr Hw. unfold macro_split, lift2. cbn [bind].
  (* protein_g and protein_cals *)
  change (mul (Float r) (Float w)) with (flt (fmul r w)). cbn [bind].
  pose proof (fmul_between _ _ _ _ _ _ Hr Hw ltac:(lia) ltac:(lia) ltac:(lia)) as Bp.
  destruct (arith_float_left Z.mul fmul (fmul r w) (Int 4) 4 4)
    as (f4 & B4 & E4); [cbn; lia|lia|lia|].
  fold mul in E4. rewrite E4. cbn [bind].
  pose proof (fmul_between _ _ _ _ _ _ Bp B4 ltac:(lia) ltac:(lia) ltac:(lia)) as Bpc.
  (* fat_cals and fat_g *)
  assert (B30 : between 0 1 f0_30) by between_const.
  destruct (arith_float_right Z.mul fmul c f0_30 19 9710 Hc)
    as (fc & Bc & Ec); [lia|lia|].
  fold mul in Ec. rewrite Ec. cbn [bind].
  pose proof (fmul_between _ _ _ _ _ _ Bc B30 ltac:(lia) ltac:(lia) ltac:(lia)) as Bfc.
  destruct (truediv_between _ 9 _ _ Bfc) as (fg & Efg & Bfg); [lia|lia|lia|].
  rewrite Efg. cbn [bind].
  (* carb_cals and carb_g *)
  destruct (arith_float_right Z.sub fsub c (fmul (fmul r w) f4) 19 9710 Hc)
    as (fc' & Bc' & Ec'); [lia|lia|].
  fold sub in Ec'. rewrite Ec'. cbn [bind].
  pose proof (fsub_between _ _ _ _ _ _ Bc' Bpc ltac:(lia) ltac:(lia)) as B1.
  change (sub (Float (fsub fc' (fmul (fmul r w) f4))) (Float (fmul fc f0_30)))
    with (flt (fsub (fsub fc' (fmul (fmul r w) f4)) (fmul fc f0_30))).
  cbn [bind].
  pose proof (fsub_between _ _ _ _ _ _ B1 Bfc ltac:(lia) ltac:(lia)) as B2.
  destruct (truediv_between _ 4 _ _ B2) as (q & Eq & Bq); [lia|lia|lia|].
  rewrite Eq. cbn [bind].
  pose proof (max_between 0 _ _ (Float q) Bq) as Bg.
  (* the three roundings *)
  destruct (float_round_between _ _ _ Bp) as (zp & Ep & Rp).
  cbn [round]. rewrite Ep. cbn [bind].
  destruct (float_round_between _ _ _ Bfg) as (zf & Ef & Rf).
  rewrite Ef. cbn [bind].
  destruct (round_between _ _ _ Bg) as (zc & Ez & Rc).
  change (match max (Int 0) (Float q) with
          | Int z => Ok z
          | Float f => float_round f
          end) with (round (max (Int 0) (Float q))).
  rewrite Ez. cbn [bind].
  eexists. split; [reflexivity|]. cbn [protein_g fat_g carb_g].
  unfold cdiv in Rf, Rc. cbn in Rp, Rf, Rc. lia.
Qed.

(** ** Bounds of the hydration check *)

Lemma hydration_between (u : UserInput) :
  between 20 300 (weight u) ->
  exists cups : Z, hydration u = Ok cups /\ 2 <= cups <= 36.
Proof.
  intros Hw. unfold hydration, lift2. cbn [bind].
  destruct (arith_float_right Z.mul fmul (Int 30) (weight u) 30 30)
    as (f30 & B30 & E); [cbn; lia|lia|lia|].
  fold mul in E. rewrite E. cbn [bind].
  pose proof (fmul_between _ _ _ _ _ _ B30 Hw ltac:(lia) ltac:(lia) ltac:(lia)) as B.
  destruct (truediv_between _ 250 _ _ B) as (q & Eq & Bq); [lia|lia|lia|].
  rewrite Eq. cbn [bind round].
  destruct (float_round_between _ _ _ Bq) as (z & Ez & Rz).
  exists z. split; [exact Ez|]. unfold cdiv in Rz. cbn in Rz. lia.
Qed.

(** ** The BMI on the values of the form *)

(** A weight the form accepts is a normal number of exponent -48 to -44. *)
Lemma weight_in_range_normal (w : float) :
  valid w = true -> between 20 300 w ->
  exists (m : positive) (e : Z),
    w = S754_finite false m e /\ Z.pos (digits2_pos m) = 53 /\ -48 <= e <= -44.
Proof.
  intros Hv Hb. destruct w as [s|s| |s m e]; try contradiction.
  - cbn in Hb. lia.
  - cbn [between] in Hb. destruct Hb as (He & L & U).
    assert (P : 0 < 2 ^ (- e)) by (apply Z.pow_pos_nonneg; lia).
    destruct s; cbn [cond_Zopp] in L, U; [exfalso; nia|].
    exists m, e. split; [reflexivity|].
    unfold valid, valid_binary, bounded, canonical_mantissa, fexp, emin, prec, emax in Hv.
    apply andb_true_iff in Hv as [Hc _]. apply Z.eqb_eq in Hc.
    pose proof (digits2_pos_bounds m) as [B1 B2].
    set (D := Z.pos (digits2_pos m)) in *.
    assert (HD : 0 < D) by (subst D; lia).
    assert (ED : D = 53).
    { destruct (Z.max_spec (D + e - 53) (3 - 1024 - 53)) as [[Hlt Hmax]|[Hge Hmax]];
        rewrite Hmax in Hc; [|lia].
      exfalso. assert (D <= 53) by lia.
      assert (2 ^ D <= 2 ^ 53) by (apply Z.pow_le_mono_r; lia).
      assert (2 ^ 53 <= 2 ^ (- e)) by (apply Z.pow_le_mono_r; lia).
      nia. }
    split; [exact ED|]. rewrite ED in *.
    change (2 ^ (53 - 1)) with (2 ^ 52) in B1.
    assert (H49 : 2 ^ (- e) < 2 ^ 49).
    { change (2 ^ 49) with 562949953421312.
      change (2 ^ 53) with 9007199254740992 in B2. lia. }
    assert (H43 : 2 ^ 43 < 2 ^ (- e)).
    { change (2 ^ 43) with 8796093022208.
      change (2 ^ 52) with 4503599627370496 in B1. lia. }
    apply Z.pow_lt_mono_r_iff in H49; [|lia|lia].
    apply Z.pow_lt_mono_r_iff in H43; [|lia|lia].
    lia.
Qed.

(** The square of a normal float, with its exponent. *)
Lemma fmul_square_normal_range (m : positive) (e : Z) :
  Z.pos (digits2_pos m) = 53 -> -563 <= e <= 458 ->
  exists (m' : positive) (e' : Z),
    fmul (S754_finite false m e) (S754_finite false m e) = S754_finite false m' e' /\
    Z.pos (digits2_pos m') = 53 /\ 2 * e + 52 <= e' <= 2 * e + 54.
Proof.
  intros D He. pose proof (digits2_pos_bounds m) as B. rewrite D in B.
  unfold fmul, SFmul. cbn [xorb].
  assert (Bm : 2 ^ 104 <= Z.pos (m * m) < 2 ^ 106).
  { rewrite Pos2Z.inj_mul.
    change (2 ^ 53) with 9007199254740992 in *.
    change (2 ^ (53 - 1)) with 4503599627370496 in *.
    change (2 ^ 104) with (4503599627370496 * 4503599627370496).
    change (2 ^ 106) with (9007199254740992 * 9007199254740992). nia. }
  assert (Dm : Z.pos (digits2_pos (m * m)) = 105 \/ Z.pos (digits2_pos (m * m)) = 106).
  { destruct (Z.ltb_spec (Z.pos (m * m)) (2 ^ 105)) as [H|H].
    - left. apply digits2_pos_unique. change (2 ^ (105 - 1)) with (2 ^ 104). lia.
    - right. apply digits2_pos_unique. change (2 ^ (106 - 1)) with (2 ^ 105). lia. }
  destruct (binary_round_aux_normal false (m * m) (e + e) loc_Exact)
    as (m' & e' & Hm' & Dm' & Be); try lia.
  exists m', e'. split; [exact Hm'|]. split; [exact Dm'|lia].
Qed.


(** On the values of the form the BMI is a normal positive float below
    4096. *)
Lemma calc_bmi_normal (w h : float) :
  valid w = true -> valid h = true -> between 20 300 w ->
  le (Int 80) (Float h) = true -> le (Float h) (Int 250) = true ->
  exists (m : positive) (e : Z),
    calc_bmi (Float w) (Float h) = Ok (Some (Float (S754_finite false m e))) /\
    Z.pos (digits2_pos m) = 53 /\ -55 <= e <= -41.
Proof.
  intros Vw Vh Bw H80 H250.
  destruct (height_in_range_normal h Vh H80 H250) as (mh & eh & -> & Dh & Eh).
  destruct (weight_in_range_normal w Vw Bw) as (mw & ew & -> & Dw & Ew).
  rewrite calc_bmi_float, f100_0_finite.
  destruct (fdiv_normal mh 7036874417766400 eh (-46) Dh eq_refl ltac:(lia))
    as (m1 & e1 & -> & D1 & E1).
  destruct (signed_gt_zero _ (signed_finite false m1 e1)) as [[Hz _]|[_ Hgt]];
    [discriminate Hz|].
  rewrite (lt_not_le _ _ Hgt).
  destruct (fmul_square_normal_range m1 e1 D1 ltac:(lia)) as (m2 & e2 & Hsq & D2 & E2).
  unfold float_pow2. rewrite Hsq. cbn [is_infinity is_zero bind].
  destruct (fdiv_normal mw m2 ew e2 Dw D2 ltac:(lia)) as (m3 & e3 & -> & D3 & E3).
  exists m3, e3. split; [reflexivity|]. split; [exact D3|lia].
Qed.

(** * Further properties of the code *)

(** ** The exercise plan *)

(** X1.  The strength advice of [exercise_plan] is the one of the category
    that [bmi_category] shows for the same BMI: the two chains of
    thresholds agree, Overweight and Obesity sharing one advice. *)
Theorem strength_follows_category (bmi : option num) (level : string) :
  strength (exercise_plan bmi level) = strength_of_category (bmi_category bmi).
Proof.
  destruct bmi as [b|]; [|reflexivity].
  unfold exercise_plan, bmi_category. cbn [strength].
  destruct (lt b (Float f18_5)); [reflexivity|].
  destruct (lt b (Int 25)); [reflexivity|].
  destruct (lt b (Int 30)); reflexivity.
Qed.

(** X2.  A level that is not a key of the dict of [activity_multiplier]
    is treated as sedentary by [activity_multiplier] but gets the cardio
    advice of the most active level from [exercise_plan]. *)
Theorem unknown_level_is_sedentary_and_most_active (bmi : option num) (level : string) :
  ~ In level activity_levels ->
  activity_multiplier level = activity_multiplier "sedentary" /\
  cardio (exercise_plan bmi level) = cardio (exercise_plan bmi "very active") /\
  String.eqb (cardio (exercise_plan bmi level))
             (cardio (exercise_plan bmi "sedentary")) = false.
Proof.
  intros Hl.
  assert (Hs : String.eqb level "sedentary" = false).
  { apply String.eqb_neq. intros ->. apply Hl. simpl; tauto. }
  assert (Hli : String.eqb level "light" = false).
  { apply String.eqb_neq. intros ->. apply Hl. simpl; tauto. }
  assert (Hm : String.eqb level "moderate" = false).
  { apply String.eqb_neq. intros ->. apply Hl. simpl; tauto. }
  split; [|split].
  - unfold activity_multiplier. cbn [get].
    repeat match goal with
           | |- context [if String.eqb ?k level then _ else _] =>
               destruct (String.eqb_spec k level) as [E|_];
               [exfalso; apply Hl; rewrite <- E; simpl; tauto|]
           end.
    reflexivity.
  - unfold exercise_plan. cbn [cardio]. rewrite Hs, Hli, Hm. reflexivity.
  - unfold exercise_plan. cbn [cardio]. rewrite Hs, Hli, Hm. reflexivity.
Qed.

Lemma unknown_level_is_sedentary_and_most_active_witness :
  activity_multiplier "very_active" = activity_multiplier "sedentary" /\
  cardio (exercise_plan None "very_active") = cardio (exercise_plan None "very active") /\
  String.eqb (cardio (exercise_plan None "very_active"))
             (cardio (exercise_plan None "sedentary")) = false.
Proof.
  apply (unknown_level_is_sedentary_and_most_active None "very_active").
  simpl. intros [H|[H|[H|[H|[H|[]]]]]]; discriminate H.
Defined.

(** ** The category and the multiplier *)

(** X3.  [bmi_category] is monotone: a BMI that is at least another one
    never falls in a lower band. *)
Theorem bmi_category_monotone (a b : num) :
  le a b = true ->
  category_rank (bmi_category (Some a)) <= category_rank (bmi_category (Some b)).
Proof.
  intros Hab. unfold bmi_category.
  destruct (lt b (Float f18_5)) eqn:B1.
  - rewrite (le_lt_trans _ _ _ Hab B1). reflexivity.
  - destruct (lt a (Float f18_5)); [destruct (lt b (Int 25)), (lt b (Int 30)); discriminate|].
    destruct (lt b (Int 25)) eqn:B2.
    + rewrite (le_lt_trans _ _ _ Hab B2). reflexivity.
    + destruct (lt a (Int 25)); [destruct (lt b (Int 30)); discriminate|].
      destruct (lt b (Int 30)) eqn:B3.
      * rewrite (le_lt_trans _ _ _ Hab B3). reflexivity.
      * destruct (lt a (Int 30)); discriminate.
Qed.

Lemma bmi_category_monotone_witness :
  category_rank (bmi_category (Some (Float (literal 249 10))))
    <= category_rank (bmi_category (Some (Int 25))).
Proof.
  apply (bmi_category_monotone (Float (literal 249 10)) (Int 25)).
  vm_compute. reflexivity.
Defined.

(** X4.  Whatever the level, the multiplier lies between 1.2 and 1.9. *)
Theorem activity_multiplier_bounds (level : string) :
  le (Float (literal 12 10)) (activity_multiplier level) = true /\
  le (activity_multiplier level) (Float (literal 19 10)) = true.
Proof.
  unfold activity_multiplier. cbn [get].
  repeat match goal with
         | |- context [if String.eqb ?k level then _ else _] =>
             destruct (String.eqb k level); [split; vm_compute; reflexivity|]
         end.
  split; vm_compute; reflexivity.
Qed.

(** ** The meal plan *)

Lemma all_from_spec (n : nat) (p : Z -> bool) (z : Z) :
  all_from n z p = true -> forall x, z <= x < z + Z.of_nat n -> p x = true.
Proof.
  revert z. induction n as [|k IH]; intros z H x Hx; [lia|].
  cbn [all_from] in H. apply andb_true_iff in H as [H0 H].
  destruct (Z.eq_dec x z) as [->|Hn]; [exact H0|].
  apply (IH (z + 1) H). lia.
Qed.

Lemma meal_split_ok_upto_10000 :
  all_from (Z.to_nat 10001) 0 meal_split_ok = true.
Proof. vm_compute. reflexivity. Qed.

(** The four shares of a target of 0 to 10000 kcal. *)
Lemma meal_shares (c : Z) :
  0 <= c <= 10000 ->
  exists b l s d : Z,
    meal_share c f0_20_value = Ok b /\ meal_share c f0_30_value = Ok l /\
    meal_share c f0_15_value = Ok s /\ meal_share c f0_35_value = Ok d /\
    b = 20 * c / 100 /\ l = 30 * c / 100 /\ s = 15 * c / 100 /\
    (d = 35 * c / 100 \/ d = 35 * c / 100 - 1) /\
    c - 3 <= b + l + s + d <= c.
Proof.
  intros Hc.
  pose proof (all_from_spec (Z.to_nat 10001) meal_split_ok 0
                meal_split_ok_upto_10000 c ltac:(rewrite Z2Nat.id; lia)) as H.
  unfold meal_split_ok in H.
  destruct (meal_share c f0_20_value) as [b|]; [|discriminate].
  destruct (meal_share c f0_30_value) as [l|]; [|discriminate].
  destruct (meal_share c f0_15_value) as [s|]; [|discriminate].
  destruct (meal_share c f0_35_value) as [d|]; [|discriminate].
  apply andb_true_iff in H as [H Hhi]. apply andb_true_iff in H as [H Hlo].
  apply andb_true_iff in H as [H Hd]. apply andb_true_iff in H as [H Hs].
  apply andb_true_iff in H as [Hb Hl].
  apply Z.eqb_eq in Hb, Hl, Hs. apply Z.leb_le in Hlo, Hhi.
  apply orb_true_iff in Hd. rewrite !Z.eqb_eq in Hd.
  exists b, l, s, d. repeat split; assumption.
Qed.

(** [sample_meal_plan] on an integer, by its four shares. *)
Lemma sample_meal_plan_by_shares (c : Z) :
  sample_meal_plan (Int c) =
    (b <- meal_share c f0_20_value ;;
     l <- meal_share c f0_30_value ;;
     s <- meal_share c f0_15_value ;;
     d <- meal_share c f0_35_value ;;
     Ok [ ("Breakfast",
            (b, ["Oats or wholegrain cereal (1 bowl)"; "1 serving fruit";
                 "6-8 egg whites or 1 whole egg + 2 whites or paneer/tofu"]));
          ("Lunch",
            (l, ["1 cup cooked whole grains (rice/quinoa)";
                 "Large serving vegetables/salad";
                 "100-150 g lean protein (chicken/fish/legumes)"]));
          ("Snack", (s, ["Greek yogurt or a handful of nuts + fruit"]));
          ("Dinner",
            (d, ["Vegetable stir-fry or salad with protein";
                 "Smaller portion of carbs than lunch"])) ]).
Proof.
  unfold sample_meal_plan, meal_share, lift2. cbn [bind].
  change f0_20 with f0_20_value. change f0_30 with f0_30_value.
  change f0_15 with f0_15_value. change f0_35 with f0_35_value.
  reflexivity.
Qed.

(** X5.  For a target of 0 to 10000 kcal [sample_meal_plan] lists
    Breakfast, Lunch, Snack and Dinner in this order with 20%, 30% and 15%
    of the target rounded down and 35% rounded down or, where the float
    product falls short, one less; together the meals have at most the
    target and at least the target less 3 kcal. *)
Theorem meal_plan_split (c : Z) :
  0 <= c <= 10000 ->
  exists (plan : list (string * (Z * list string))) (b l s d : Z),
    sample_meal_plan (Int c) = Ok plan /\
    meal_names plan = ["Breakfast"; "Lunch"; "Snack"; "Dinner"] /\
    meal_kcal plan = [b; l; s; d] /\
    b = 20 * c / 100 /\ l = 30 * c / 100 /\ s = 15 * c / 100 /\
    (d = 35 * c / 100 \/ d = 35 * c / 100 - 1) /\
    c - 3 <= b + l + s + d <= c.
Proof.
  intros Hc.
  destruct (meal_shares c Hc) as (b & l & s & d & Eb & El & Es & Ed & H).
  rewrite sample_meal_plan_by_shares, Eb, El, Es, Ed. cbn [bind].
  eexists. exists b, l, s, d.
  split; [reflexivity|]. split; [reflexivity|]. split; [reflexivity|].
  exact H.
Qed.

(** At 180 kcal the dinner is 62 kcal, one less than 35%: 180 * 0.35 is
    62.99999999999999 in binary64. *)
Lemma meal_plan_split_witness :
  exists (plan : list (string * (Z * list string))) (b l s d : Z),
    sample_meal_plan (Int 180) = Ok plan /\
    meal_names plan = ["Breakfast"; "Lunch"; "Snack"; "Dinner"] /\
    meal_kcal plan = [b; l; s; d] /\
    b = 20 * 180 / 100 /\ l = 30 * 180 / 100 /\ s = 15 * 180 / 100 /\
    (d = 35 * 180 / 100 \/ d = 35 * 180 / 100 - 1) /\
    180 - 3 <= b + l + s + d <= 180.
Proof. apply (meal_plan_split 180). lia. Defined.

(** ** The floor of the carbohydrates *)

Lemma round_max_zero (q : num) (z : Z) : round (max (Int 0) q) = Ok z -> 0 <= z.
Proof.
  unfold max, gt. destruct (lt (Int 0) q) eqn:E; [|intros [= <-]; lia].
  destruct q as [x|f]; cbn [round].
  - intros [= <-]. unfold lt, compare in E. cbn [value xcompare] in E.
    destruct (inject_Z 0 ?= inject_Z x)%Q eqn:C; try discriminate E.
    apply Qlt_alt in C. rewrite <- Zlt_Qlt in C. lia.
  - destruct f as [s|s| |s m e]; try discriminate.
    destruct s.
    + pose proof (signed_le_zero _ (signed_finite true m e)) as L.
      apply le_not_lt in L. congruence.
    + unfold float_round. cbn [cond_Zopp]. intros [= <-].
      destruct (Z.leb_spec 0 e) as [P|P].
      * pose proof (Z.pow_nonneg 2 e ltac:(lia)) as N.
        destruct (2 ^ e); lia.
      * assert (Hp : 0 < 2 ^ (- e)) by (apply Z.pow_pos_nonneg; lia).
        pose proof (div_nearest_even_between (Z.pos m) (2 ^ (- e)) 0
                      (Z.pos m) Hp ltac:(nia)). lia.
Qed.

(** X6.  Whenever [macro_split] returns, the carbohydrates are not
    negative, also when protein and fat alone exceed the calories. *)
Theorem macro_split_carbs_not_negative (c r w : num) (m : macros) :
  macro_split c r w = Ok m -> 0 <= carb_g m.
Proof.
  intros H. apply macro_split_returns_iff in H
    as (p & f & g & _ & _ & Hg & _ & _ & Rg).
  unfold carb_grams in Hg.
  destruct (carb_calories c r w /! int 4) as [q|]; cbn [bind] in Hg;
    [|discriminate].
  injection Hg as <-. exact (round_max_zero _ _ Rg).
Qed.

(** At the floor of 1200 kcal a person of 300 kg is given 480 g of
    protein, 1920 kcal, and no carbohydrates. *)
Lemma macro_split_carbs_not_negative_witness :
  macro_split (Int 1200) (Float f1_6) (Float (float_of_Z 300))
    = Ok {| protein_g := 480; fat_g := 40; carb_g := 0 |} /\
  0 <= carb_g {| protein_g := 480; fat_g := 40; carb_g := 0 |}.
Proof.
  assert (E : macro_split (Int 1200) (Float f1_6) (Float (float_of_Z 300))
              = Ok {| protein_g := 480; fat_g := 40; carb_g := 0 |})
    by (vm_compute; reflexivity).
  split; [exact E|].
  exact (macro_split_carbs_not_negative _ _ _ _ E).
Defined.

(** ** The script on the values of the form *)

(** X7.  For every weight the form accepts (20 to 300 kg) the recommended
    water intake is computed and lies between 2 and 36 cups. *)
Theorem recommended_cups_range (u : UserInput) :
  valid (weight u) = true ->
  le (Int 20) (Float (weight u)) = true ->
  le (Float (weight u)) (Int 300) = true ->
  exists cups : Z, hydration u = Ok cups /\ 2 <= cups <= 36.
Proof.
  intros Vw L U. apply hydration_between.
  apply between_of_range; auto; lia.
Qed.

(** Both bounds are reached: 2 cups at 20 kg. *)
Lemma recommended_cups_range_witness :
  hydration (lightest_oldest "lose") = Ok 2 /\
  exists cups : Z, hydration (lightest_oldest "lose") = Ok cups /\ 2 <= cups <= 36.
Proof.
  split; [vm_compute; reflexivity|].
  apply (recommended_cups_range (lightest_oldest "lose"));
    vm_compute; reflexivity.
Defined.

Lemma in_range_height (u : UserInput) :
  in_range u = true ->
  le (Int 80) (Float (height u)) = true /\ le (Float (height u)) (Int 250) = true.
Proof.
  intros H. unfold in_range in H.
  apply andb_true_iff in H as [H A2]. apply andb_true_iff in H as [H A1].
  apply andb_true_iff in H as [H H2]. apply andb_true_iff in H as [H H1].
  auto.
Qed.

Lemma script_in_range (u : UserInput) :
  valid (weight u) = true -> valid (height u) = true -> in_range u = true ->
  exists (d : DerivedMetrics) (o : Outputs),
    calculations u = Ok d /\ outputs u = Ok o /\ displayed_ok u o /\
    out_bmi o = bmi d /\ out_category o = category d /\
    out_macros o = macros_ d /\ out_recommended_cups o = recommended_cups d.
Proof.
  intros Vw Vh Hr.
  destruct (in_range_between u Vw Vh Hr) as (Bw & Bh & Ba).
  destruct (in_range_height u Hr) as [H80 H250].
  destruct (calc_bmi_normal (weight u) (height u) Vw Vh Bw H80 H250)
    as (mb0 & eb0 & Ebmi & Db0 & Eb0).
  destruct (energy_needs_between u Bw Bh Ba) as (b & t & c & Ee & Bb & Bt & Bc).
  destruct (protein_g_per_kg_between (goal u)) as (r & Er & Br).
  destruct (macro_split_between c r (weight u) Bc Br Bw)
    as (m & Em & Mp & Mf & Mc).
  destruct (float_round_between b _ _ Bb) as (zb & Eb & Rb).
  destruct (float_round_between t _ _ Bt) as (zt & Et & Rt).
  destruct (round_between c _ _ Bc) as (zc & Ec & Rc).
  destruct (hydration_between u Bw) as (cups & Eh & Rh).
  destruct (meal_shares zc ltac:(lia))
    as (mb & ml & ms & md & Emb & Eml & Ems & Emd & _).
  pose proof (sample_meal_plan_by_shares zc) as Eplan.
  rewrite Emb, Eml, Ems, Emd in Eplan. cbn [bind] in Eplan.
  unfold calculations, outputs.
  rewrite Ebmi, Ee. cbn [bind]. rewrite Er, Em. cbn [bind round].
  rewrite Eb, Et. cbn [bind]. fold (round c). rewrite Ec, Eh. cbn [bind].
  rewrite Eplan. cbn [bind].
  do 2 eexists. split; [reflexivity|]. split; [reflexivity|].
  unfold displayed_ok. cbn.
  split; [|repeat split; try lia; assumption].
  split; [exists mb0, eb0; repeat split; try lia; assumption|].
  repeat split; try lia; assumption.
Qed.



(** X9.  On every submission the form allows, the displayed energy
    figures are positive and bounded: the BMR lies between 19 and 4705
    kcal, the TDEE between 19 and 9410, the calorie target between 19 and
    9710; the protein lies between 20 and 600 g, and fat and
    carbohydrates are not negative. *)
Theorem displayed_figures_bounds (u : UserInput) (o : Outputs) :
  valid (weight u) = true -> valid (height u) = true -> in_range u = true ->
  outputs u = Ok o ->
  19 <= out_bmr o <= 4705 /\ 19 <= out_tdee o <= 9410 /\
  19 <= out_cal_target o <= 9710 /\
  20 <= protein_g (out_macros o) <= 600 /\
  0 <= fat_g (out_macros o) <= 1079 /\
  0 <= carb_g (out_macros o) <= 2408.
Proof.
  intros Vw Vh Hr Ho.
  destruct (script_in_range u Vw Vh Hr) as (d & o' & _ & Ho' & D & _).
  rewrite Ho in Ho'. injection Ho' as <-.
  unfold displayed_ok in D. tauto.
Qed.

Lemma displayed_figures_bounds_witness :
  exists o : Outputs,
    outputs default_input = Ok o /\
    19 <= out_bmr o <= 4705 /\ 19 <= out_tdee o <= 9410 /\
    19 <= out_cal_target o <= 9710 /\
    20 <= protein_g (out_macros o) <= 600 /\
    0 <= fat_g (out_macros o) <= 1079 /\
    0 <= carb_g (out_macros o) <= 2408.
Proof.
  destruct (outputs default_input) as [o|] eqn:E;
    [|vm_compute in E; discriminate E].
  exists o. split; [reflexivity|].
  apply (displayed_figures_bounds default_input o);
    [vm_compute; reflexivity|vm_compute; reflexivity|vm_compute; reflexivity|exact E].
Defined.

(** X10.  On every submission the form allows, the meal plan on display
    is the one of the displayed calorie target: Breakfast, Lunch, Snack
    and Dinner with 20%, 30% and 15% of it rounded down and 35% rounded
    down or one less, in total at most the target and at least the target
    less 3 kcal. *)
Theorem displayed_plan_split (u : UserInput) (o : Outputs) :
  valid (weight u) = true -> valid (height u) = true -> in_range u = true ->
  outputs u = Ok o ->
  exists b l s d : Z,
    meal_names (out_plan o) = ["Breakfast"; "Lunch"; "Snack"; "Dinner"] /\
    meal_kcal (out_plan o) = [b; l; s; d] /\
    b = 20 * out_cal_target o / 100 /\ l = 30 * out_cal_target o / 100 /\
    s = 15 * out_cal_target o / 100 /\
    (d = 35 * out_cal_target o / 100 \/ d = 35 * out_cal_target o / 100 - 1) /\
    out_cal_target o - 3 <= b + l + s + d <= out_cal_target o.
Proof.
  intros Vw Vh Hr Ho.
  destruct (script_in_range u Vw Vh Hr) as (d0 & o' & _ & Ho' & D & _).
  rewrite Ho in Ho'. injection Ho' as <-.
  destruct D as (_ & _ & _ & _ & _ & Ht & _ & _ & _ & _ & _ & Ep).
  destruct (meal_shares (out_cal_target o) ltac:(lia))
    as (b & l & s & d & Eb & El & Es & Ed & H).
  rewrite sample_meal_plan_by_shares, Eb, El, Es, Ed in Ep. cbn [bind] in Ep.
  injection Ep as <-.
  exists b, l, s, d. split; [reflexivity|]. split; [reflexivity|]. exact H.
Qed.

Lemma displayed_plan_split_witness :
  exists (o : Outputs) (b l s d : Z),
    outputs default_input = Ok o /\
    meal_names (out_plan o) = ["Breakfast"; "Lunch"; "Snack"; "Dinner"] /\
    meal_kcal (out_plan o) = [b; l; s; d] /\
    b = 20 * out_cal_target o / 100 /\ l = 30 * out_cal_target o / 100 /\
    s = 15 * out_cal_target o / 100 /\
    (d = 35 * out_cal_target o / 100 \/ d = 35 * out_cal_target o / 100 - 1) /\
    out_cal_target o - 3 <= b + l + s + d <= out_cal_target o.
Proof.
  destruct (outputs default_input) as [o|] eqn:E;
    [|vm_compute in E; discriminate E].
  destruct (displayed_plan_split default_input o) as (b & l & s & d & H);
    [vm_compute; reflexivity|vm_compute; reflexivity|vm_compute; reflexivity
    |exact E|].
  exists o, b, l, s, d. split; [reflexivity|exact H].
Defined.

(** X11.  On every submission the form allows, the hydration check
    recommends 2 to 36 cups; whoever reports fewer than 2 cups is warned
    and whoever reports 36 cups or more is not. *)
Theorem hydration_warning (u : UserInput) (o : Outputs) :
  valid (weight u) = true -> valid (height u) = true -> in_range u = true ->
  outputs u = Ok o ->
  2 <= out_recommended_cups o <= 36 /\
  out_drinks_too_little o = (water_cups u <? out_recommended_cups o) /\
  (water_cups u < 2 -> out_drinks_too_little o = true) /\
  (36 <= water_cups u -> out_drinks_too_little o = false).
Proof.
  intros Vw Vh Hr Ho.
  destruct (script_in_range u Vw Vh Hr) as (d0 & o' & _ & Ho' & D & _).
  rewrite Ho in Ho'. injection Ho' as <-.
  destruct D as (_ & _ & _ & _ & _ & _ & _ & _ & _ & Hc & Hw & _).
  split; [exact Hc|]. split; [exact Hw|]. rewrite Hw. split; intros H.
  - apply Z.ltb_lt. lia.
  - apply Z.ltb_ge. lia.
Qed.

Lemma hydration_warning_witness :
  exists o : Outputs,
    outputs default_input = Ok o /\
    2 <= out_recommended_cups o <= 36 /\
    out_drinks_too_little o = (water_cups default_input <? out_recommended_cups o) /\
    (water_cups default_input < 2 -> out_drinks_too_little o = true) /\
    (36 <= water_cups default_input -> out_drinks_too_little o = false).
Proof.
  destruct (outputs default_input) as [o|] eqn:E;
    [|vm_compute in E; discriminate E].
  exists o. split; [reflexivity|].
  apply (hydration_warning default_input o);
    [vm_compute; reflexivity|vm_compute; reflexivity|vm_compute; reflexivity|exact E].
Defined.


